(** * stetho: scripts/dist/setup.py

    A shallow embedding of the packaging script [scripts/dist/setup.py]
    together with the part of Python's [configparser] that the script
    drives ([ConfigParser.read_file], [ConfigParser.__getitem__],
    [SectionProxy.__getitem__] and [BasicInterpolation], CPython 3.11).

    Conventions.
    - A Python [str] is a [string]; a character is a code point below 256.
    - A [dict] is a [gmap]; the set [elements_added] of [_read], which mixes
      section names and (section, option) pairs, is a pair of [gset]s.
    - Exceptions are values of [exn]; a computation that may raise has a
      [result] type and is sequenced with [x ← c; k].
    - The file system is a field of [World]. *)

From stdpp Require Import gmap strings list fin_maps.
From Stdlib Require Import Ascii.

(** ** Python [str] primitives *)

Module Str.

(** [str.isspace] on one character (also the class [\s] of [re]). *)
Definition isspace (c : ascii) : bool :=
  match c with
  | ("009" | "010" | "011" | "012" | "013"
     | "028" | "029" | "030" | "031" | " " | "133" | "160")%char => true
  | _ => false
  end.

Definition eqb (a b : ascii) : bool := Ascii.eqb a b.

(** [str.lower] on one character: A-Z and the upper-case letters of
    Latin-1 (0xC0-0xDE but 0xD7) move up by 32. *)
Definition lower_char (c : ascii) : ascii :=
  let n := nat_of_ascii c in
  if (((65 <=? n) && (n <=? 90))
      || ((192 <=? n) && (n <=? 222) && negb (n =? 215)))%nat
  then ascii_of_nat (n + 32) else c.

Fixpoint lower (s : string) : string :=
  match s with
  | EmptyString => EmptyString
  | String c s' => String (lower_char c) (lower s')
  end.

Fixpoint lstrip (s : string) : string :=
  match s with
  | EmptyString => EmptyString
  | String c s' => if isspace c then lstrip s' else s
  end.

Fixpoint rstrip (s : string) : string :=
  match s with
  | EmptyString => EmptyString
  | String c s' =>
      match rstrip s' with
      | EmptyString => if isspace c then EmptyString else String c EmptyString
      | r => String c r
      end
  end.

Definition strip (s : string) : string := lstrip (rstrip s).

(** [s.startswith(c)] for a one-character prefix. *)
Definition startswith_char (c : ascii) (s : string) : bool :=
  match s with
  | String d _ => eqb c d
  | EmptyString => false
  end.

(** [c in s] for a one-character needle. *)
Fixpoint contains (c : ascii) (s : string) : bool :=
  match s with
  | EmptyString => false
  | String d s' => eqb c d || contains c s'
  end.

(** [sep.join(l)]. *)
Fixpoint join (sep : string) (l : list string) : string :=
  match l with
  | [] => ""
  | [x] => x
  | x :: l' => x +:+ sep +:+ join sep l'
  end.

(** [s.split('/')] style splitting on one character. *)
Fixpoint split (sep : ascii) (s : string) : list string :=
  match s with
  | EmptyString => [""]
  | String c s' =>
      if eqb c sep then "" :: split sep s'
      else match split sep s' with
           | [] => [String c ""]
           | x :: l => String c x :: l
           end
  end.

(** The index of the first character that is not white space
    ([re.compile(r"\S").search(line).start()]), if there is one. *)
Fixpoint first_nonspace (s : string) : option nat :=
  match s with
  | EmptyString => None
  | String c s' => if isspace c then S <$> first_nonspace s' else Some 0
  end.

End Str.

Definition LF : ascii := "010"%char.

(** Iterating over a text-mode file object: the text is cut after every
    line feed, and every line keeps its terminator. *)
Fixpoint readlines (text : string) : list string :=
  match text with
  | EmptyString => []
  | String c rest =>
      if Str.eqb c LF then String c "" :: readlines rest
      else match readlines rest with
           | [] => [String c ""]
           | l :: ls => String c l :: ls
           end
  end.

(** ** Exceptions and the error monad *)

Inductive exn : Type :=
| FileNotFoundError (filename : string)
| KeyError (key : string)
| DuplicateSectionError (section source : string) (lineno : nat)
| DuplicateOptionError (section option source : string) (lineno : nat)
| MissingSectionHeaderError (source : string) (lineno : nat) (line : string)
| ParsingError (source : string) (errors : list (nat * string))
| NoSectionError (section : string)
| NoOptionError (option section : string)
| InterpolationSyntaxError (option section : string)
| InterpolationMissingOptionError (option section rawval reference : string)
| InterpolationDepthError (option section rawval : string).

Inductive result (A : Type) : Type :=
| Ok (a : A)
| Raise (x : exn).
Arguments Ok {A} a.
Arguments Raise {A} x.

Definition bind {A B : Type} (c : result A) (k : A → result B) : result B :=
  match c with
  | Ok a => k a
  | Raise x => Raise x
  end.

Notation "x ← c ; k" := (bind c (fun x => k))
  (at level 20, c at level 100, k at level 200, right associativity,
   format "x  ←  c ;  '/' k").

(** ** configparser *)

Module configparser.

Definition MAX_INTERPOLATION_DEPTH : nat := 10.
Definition DEFAULTSECT : string := "DEFAULT".

(** [ConfigParser()] with no argument: delimiters [=] and [:], full-line
    comment prefixes [#] and [;], no inline comment prefix, [strict],
    [empty_lines_in_values], no valueless options, [BasicInterpolation]. *)
Definition is_delimiter (c : ascii) : bool := Str.eqb c "="%char || Str.eqb c ":"%char.
Definition is_comment_prefix (c : ascii) : bool := Str.eqb c "#"%char || Str.eqb c ";"%char.

Definition optionxform (optionstr : string) : string := Str.lower optionstr.

(** [SECTCRE = \[(?P<header>.+)\]] applied with [match]: the text starts
    with an opening bracket and the header runs up to the last closing
    bracket; it has at least one character. *)
Fixpoint before_last_bracket (s : string) : option string :=
  match s with
  | EmptyString => None
  | String c s' =>
      match before_last_bracket s' with
      | Some h => Some (String c h)
      | None => if Str.eqb c "]"%char then Some EmptyString else None
      end
  end.

Definition SECTCRE_match (value : string) : option string :=
  match value with
  | String c s =>
      if Str.eqb c "["%char then
        match before_last_bracket s with
        | Some (String d h) => Some (String d h)
        | _ => None
        end
      else None
  | EmptyString => None
  end.

(** The text before and after the first delimiter. *)
Fixpoint partition_delimiter (s : string) : option (string * string) :=
  match s with
  | EmptyString => None
  | String c s' =>
      if is_delimiter c then Some (EmptyString, s')
      else match partition_delimiter s' with
           | Some (k, v) => Some (String c k, v)
           | None => None
           end
  end.

(** [OPTCRE] (the template [_OPT_TMPL] with the delimiters [=] and [:]:
    a lazy group [option], white space, a delimiter, white space, and a
    group [value] that runs to the end) applied with [match] to a stripped
    line, which holds no line feed: [option] stops before the white space
    that precedes the first delimiter, and [value] starts after the white
    space that follows it. The result is the pair of groups [option] and
    [value]. *)
Definition OPTCRE_match (value : string) : option (string * string) :=
  match partition_delimiter value with
  | Some (k, v) => Some (Str.rstrip k, Str.lstrip v)
  | None => None
  end.

(** *** The parser object and the state of [_read] *)

(** [self._sections] and [self._defaults]. While [_read] runs a value is
    the list of the lines of the option; [_join_multiline_values] turns
    it into a string. *)
Record parser (V : Type) : Type := Parser {
  _sections : gmap string (gmap string V);
  _defaults : gmap string V
}.
Arguments Parser {V} _ _.
Arguments _sections {V} _.
Arguments _defaults {V} _.

(** The local variables of [_read]. [cursect] is no field: the two
    variables [cursect] and [sectname] are assigned together, and
    [cursect] is the dictionary that [sectname] designates (see
    [cursect] below); it is [None] exactly when [sectname] is. *)
Record read_state : Type := ReadState {
  self : parser (list string);
  added_sections : gset string;            (* the names in [elements_added] *)
  added_options : gset (string * string);  (* the pairs in [elements_added] *)
  sectname : option string;
  optname : option string;
  indent_level : nat;
  exc : option (list (nat * string))       (* [e]: None, or a ParsingError *)
}.

(** [ConfigParser()] followed by the first lines of [_read]. *)
Definition initial : read_state :=
  ReadState (Parser ∅ ∅) ∅ ∅ None None 0 None.

(** The dictionary [cursect] aliases: [self._defaults] for the default
    section, [self._sections[sectname]] for any other. *)
Definition cursect (p : parser (list string)) (name : string)
  : gmap string (list string) :=
  if decide (name = DEFAULTSECT) then _defaults p
  else default ∅ (_sections p !! name).

(** A write through the alias [cursect]. *)
Definition set_cursect (p : parser (list string)) (name : string)
    (d : gmap string (list string)) : parser (list string) :=
  if decide (name = DEFAULTSECT) then Parser (_sections p) d
  else Parser (<[name := d]> (_sections p)) (_defaults p).

(** [cursect[optname].append(value)]; the subscription raises [KeyError]
    on a missing key. *)
Definition cursect_append (st : read_state) (name opt value : string)
  : result read_state :=
  let d := cursect (self st) name in
  match d !! opt with
  | Some l =>
      Ok (ReadState (set_cursect (self st) name (<[opt := l ++ [value]]> d))
            (added_sections st) (added_options st) (sectname st)
            (optname st) (indent_level st) (exc st))
  | None => Raise (KeyError opt)
  end.

(** [_handle_error]: the line is recorded in the pending [ParsingError]
    (as the line itself; the source records [repr(line)]). *)
Definition _handle_error (exc : option (list (nat * string)))
    (lineno : nat) (line : string) : option (list (nat * string)) :=
  Some (default [] exc ++ [(lineno, line)]).

(** The condition [cursect is not None and optname]: the section and
    the option a continuation line would extend. *)
Definition open_option (st : read_state) : option (string * string) :=
  match sectname st, optname st with
  | Some name, Some (String c o) => Some (name, String c o)
  | _, _ => None
  end.

(** [line.strip().startswith(prefix)] for one of the comment prefixes. *)
Definition is_comment (line : string) : bool :=
  match Str.strip line with
  | String c _ => is_comment_prefix c
  | EmptyString => false
  end.

(** The section header branch of [_read]. *)
Definition read_header (st : read_state) (fpname : string) (lineno : nat)
    (cur_indent_level : nat) (name : string) : result read_state :=
  match _sections (self st) !! name with
  | Some _ =>
      if decide (name ∈ added_sections st)
      then Raise (DuplicateSectionError name fpname lineno)
      else Ok (ReadState (self st) ({[name]} ∪ added_sections st)
                 (added_options st) (Some name) None cur_indent_level (exc st))
  | None =>
      if decide (name = DEFAULTSECT)
      then Ok (ReadState (self st) (added_sections st) (added_options st)
                 (Some name) None cur_indent_level (exc st))
      else Ok (ReadState
                 (Parser (<[name := ∅]> (_sections (self st))) (_defaults (self st)))
                 ({[name]} ∪ added_sections st) (added_options st)
                 (Some name) None cur_indent_level (exc st))
  end.

(** The option branch of [_read], for a line that [OPTCRE] matches with
    the groups [option] and [value]. *)
Definition read_option (st : read_state) (fpname : string) (lineno : nat)
    (cur_indent_level : nat) (line name opt value : string)
  : result read_state :=
  let e := match opt with
           | EmptyString => _handle_error (exc st) lineno line
           | _ => exc st
           end in
  let opt := optionxform (Str.rstrip opt) in
  if decide ((name, opt) ∈ added_options st)
  then Raise (DuplicateOptionError name opt fpname lineno)
  else
    let d := cursect (self st) name in
    Ok (ReadState (set_cursect (self st) name (<[opt := [Str.strip value]]> d))
          (added_sections st) ({[(name, opt)]} ∪ added_options st)
          (Some name) (Some opt) cur_indent_level e).

(** The body of the loop of [_read] for one line. *)
Definition read_line (fpname : string) (st : read_state) (lineno : nat)
    (line : string) : result read_state :=
  let comment := is_comment line in
  let value := if comment then EmptyString else Str.strip line in
  match value with
  | EmptyString =>
      (* empty_lines_in_values: a blank line, not a comment, is added to
         the value of the open option *)
      match comment, open_option st with
      | false, Some (name, opt) => cursect_append st name opt ""
      | _, _ => Ok st
      end
  | _ =>
      let cur_indent_level := default 0 (Str.first_nonspace line) in
      let continued :=
        match open_option st with
        | Some (name, opt) =>
            if (indent_level st <? cur_indent_level)%nat
            then Some (name, opt) else None
        | None => None
        end in
      match continued with
      | Some (name, opt) => cursect_append st name opt value
      | None =>
          match SECTCRE_match value with
          | Some header => read_header st fpname lineno cur_indent_level header
          | None =>
              match sectname st with
              | None => Raise (MissingSectionHeaderError fpname lineno line)
              | Some name =>
                  match OPTCRE_match value with
                  | Some (o, v) =>
                      read_option st fpname lineno cur_indent_level line name o v
                  | None =>
                      Ok (ReadState (self st) (added_sections st) (added_options st)
                            (sectname st) (optname st) cur_indent_level
                            (_handle_error (exc st) lineno line))
                  end
              end
          end
      end
  end.

(** The loop [for lineno, line in enumerate(fp, start=1)]. *)
Fixpoint read_lines (fpname : string) (st : read_state) (lineno : nat)
    (fp : list string) : result read_state :=
  match fp with
  | [] => Ok st
  | line :: fp' =>
      st' ← read_line fpname st lineno line;
      read_lines fpname st' (S lineno) fp'
  end.

(** [_join_multiline_values]: every value becomes
    ['\n'.join(val).rstrip()]; [before_read] of [BasicInterpolation] is
    the identity. *)
Definition join_value (val : list string) : string :=
  Str.rstrip (Str.join (String LF "") val).

Definition _join_multiline_values (p : parser (list string)) : parser string :=
  Parser ((λ options : gmap string (list string), join_value <$> options)
            <$> _sections p)
         (join_value <$> _defaults p).

Definition _read (fp : list string) (fpname : string) : result (parser string) :=
  st ← read_lines fpname initial 1 fp;
  let p := _join_multiline_values (self st) in
  match exc st with
  | Some errors => Raise (ParsingError fpname errors)
  | None => Ok p
  end.

(** [read_file(f, source)] with a source given. *)
Definition read_file (f : list string) (source : string) : result (parser string) :=
  _read f source.

(** *** Lookup *)

Definition has_section (p : parser string) (section : string) : bool :=
  bool_decide (is_Some (_sections p !! section)).

(** [has_option] for a section name that is not empty. *)
Definition has_option (p : parser string) (section opt : string) : bool :=
  if decide (section = DEFAULTSECT)
  then bool_decide (is_Some (_defaults p !! optionxform opt))
  else match _sections p !! section with
       | None => false
       | Some d =>
           bool_decide (is_Some (d !! optionxform opt))
           || bool_decide (is_Some (_defaults p !! optionxform opt))
       end.

(** [_unify_values(section, vars=None)]: the chain of the dictionary of
    the section and of the defaults, as a lookup function. *)
Definition _unify_values (p : parser string) (section : string)
  : result (string → option string) :=
  match _sections p !! section with
  | Some d =>
      Ok (λ k, match d !! k with Some v => Some v | None => _defaults p !! k end)
  | None =>
      if decide (section = DEFAULTSECT) then Ok (λ k, _defaults p !! k)
      else Raise (NoSectionError section)
  end.

(** The loop [while rest:] of [BasicInterpolation._interpolate_some].
    [accum] is the text gathered so far (the source joins the pieces at
    the end); [rawval] is the raw value of the option, for the messages;
    [recurse accum v] is the recursive call of [_interpolate_some] on
    the value [v] of a reference, one level deeper. The inner [scan] is
    [_KEYCRE], a name without closing parenthesis between [%(] and [)s],
    matched at the start of [rest]. *)
Fixpoint interpolate_loop (recurse : string → string → result string)
    (opt section rawval : string) (map : string → option string)
    (rest accum : string) {struct rest} : result string :=
  match rest with
  | EmptyString => Ok accum
  | String c rest1 =>
      if negb (Str.eqb c "%"%char)
      then interpolate_loop recurse opt section rawval map rest1
             (accum +:+ String c "")
      else
        match rest1 with
        | EmptyString => Raise (InterpolationSyntaxError opt section)
        | String c' rest2 =>
            if Str.eqb c' "%"%char
            then interpolate_loop recurse opt section rawval map rest2
                   (accum +:+ "%")
            else if Str.eqb c' "("%char then
              (fix scan (s var : string) {struct s} : result string :=
                 match s with
                 | EmptyString => Raise (InterpolationSyntaxError opt section)
                 | String d s' =>
                     if negb (Str.eqb d ")"%char)
                     then scan s' (var +:+ String d "")
                     else
                       match var, s' with
                       | String _ _, String e rest3 =>
                           if negb (Str.eqb e "s"%char)
                           then Raise (InterpolationSyntaxError opt section)
                           else
                             match map (optionxform var) with
                             | None =>
                                 Raise (InterpolationMissingOptionError
                                          opt section rawval (optionxform var))
                             | Some v =>
                                 if Str.contains "%"%char v
                                 then
                                   match recurse accum v with
                                   | Ok accum' =>
                                       interpolate_loop recurse opt section
                                         rawval map rest3 accum'
                                   | Raise x => Raise x
                                   end
                                 else interpolate_loop recurse opt section
                                        rawval map rest3 (accum +:+ v)
                             end
                       | _, _ => Raise (InterpolationSyntaxError opt section)
                       end
                 end) rest2 ""
            else Raise (InterpolationSyntaxError opt section)
        end
  end.

(** [BasicInterpolation._interpolate_some]. [fuel] is
    [MAX_INTERPOLATION_DEPTH + 1 - depth]; [rawval] is the value
    [parser.get(section, option, raw=True, fallback=rest)]. *)
Fixpoint _interpolate_some (fuel : nat) (opt : string) (accum rest : string)
    (section : string) (map : string → option string) {struct fuel}
  : result string :=
  let rawval := default rest (map (optionxform opt)) in
  match fuel with
  | 0 => Raise (InterpolationDepthError opt section rawval)
  | S fuel' =>
      interpolate_loop
        (λ accum v, _interpolate_some fuel' opt accum v section map)
        opt section rawval map rest accum
  end.

Definition before_get (section opt value : string)
    (defaults : string → option string) : result string :=
  _interpolate_some MAX_INTERPOLATION_DEPTH opt "" value section defaults.

(** [get(section, option)] with [raw=False], no [vars], no [fallback]. *)
Definition get (p : parser string) (section opt : string) : result string :=
  d ← _unify_values p section;
  let opt := optionxform opt in
  match d opt with
  | None => Raise (NoOptionError opt section)
  | Some value => before_get section opt value d
  end.

(** [ConfigParser.__getitem__]: the result is the proxy of the section,
    which is modelled by the name of the section. *)
Definition getitem (p : parser string) (key : string) : result string :=
  if negb (bool_decide (key = DEFAULTSECT)) && negb (has_section p key)
  then Raise (KeyError key)
  else Ok key.

(** [SectionProxy.__getitem__]. *)
Definition proxy_getitem (p : parser string) (_name key : string) : result string :=
  if negb (has_option p _name key) then Raise (KeyError key)
  else get p _name key.

End configparser.

(** ** posixpath and the file system *)

Module posixpath.

Definition sep : ascii := "/"%char.

(** [p[:p.rfind('/') + 1]] *)
Fixpoint head_of (p : string) : string :=
  match p with
  | EmptyString => EmptyString
  | String c p' =>
      match head_of p' with
      | EmptyString => if Str.eqb c sep then String c EmptyString else EmptyString
      | h => String c h
      end
  end.

(** [s.rstrip('/')] *)
Fixpoint rstrip_sep (s : string) : string :=
  match s with
  | EmptyString => EmptyString
  | String c s' =>
      match rstrip_sep s' with
      | EmptyString => if Str.eqb c sep then EmptyString else String c EmptyString
      | r => String c r
      end
  end.

(** [os.path.dirname]: the head is cut after the last separator, and
    loses its trailing separators unless it consists of separators. *)
Definition dirname (p : string) : string :=
  let head := head_of p in
  match rstrip_sep head with
  | EmptyString => head
  | stripped => stripped
  end.

End posixpath.

(** The environment of one run of the script. Files are named by their
    canonical absolute path. [realpath_of_file] is the value of
    [os.path.realpath(__file__)], an absolute path without symbolic links. *)
Record World : Type := {
  realpath_of_file : string;
  getcwd : string;
  files : string → option string
}.

Module os.

(** Path resolution by the system for a path whose directories are not
    symbolic links: a relative path starts at the working directory, empty
    components and [.] are skipped, [..] moves to the parent and stays at
    the root. [stack] holds the components walked so far, last first. *)
Fixpoint walk (stack : list string) (components : list string) : list string :=
  match components with
  | [] => stack
  | c :: cs =>
      if decide (c = "" ∨ c = ".") then walk stack cs
      else if decide (c = "..") then walk (tail stack) cs
      else walk (c :: stack) cs
  end.

Definition of_components (l : list string) : string :=
  String posixpath.sep (Str.join "/" l).

Definition resolve (cwd path : string) : string :=
  let absolute :=
    if Str.startswith_char posixpath.sep path then path
    else cwd +:+ "/" +:+ path in
  of_components (rev (walk [] (Str.split posixpath.sep absolute))).

(** [open(filename)] in text mode, for reading: the text of the file as
    the text layer delivers it (decoded, line ends translated to line
    feeds), or [FileNotFoundError]. A world holds a text or nothing at a
    path: a directory or an unreadable file at the path, and bytes that
    do not decode, are outside this model, and so are the exceptions that
    [open] and the iteration over the file raise for them. *)
Definition open (w : World) (filename : string) : result string :=
  match files w (resolve (getcwd w) filename) with
  | Some text => Ok text
  | None => Raise (FileNotFoundError filename)
  end.

End os.

(** ** The script *)

(** The path the script opens:
    ['%s/../../gradle.properties' % (path)]. *)
Definition gradle_properties (path : string) : string :=
  path +:+ "/../../gradle.properties".

(** [itertools.chain(['[properties]'], fp)] *)
Definition chain (head fp : list string) : list string := head ++ fp.

Definition read_version_name (w : World) : result string :=
  let path := posixpath.dirname (realpath_of_file w) in
  let filename := gradle_properties path in
  fp ← os.open w filename;
  config ← configparser.read_file (chain ["[properties]"] (readlines fp)) filename;
  properties ← configparser.getitem config "properties";
  configparser.proxy_getitem config properties "VERSION_NAME".

(** The keyword arguments of a call of [setup] (the package descriptor of
    the specification). *)
Record setup_arguments : Type := {
  name : string;
  packages : list string;
  version : string;
  description : string;
  author : string;
  author_email : string;
  url : string;
  keywords : list string;
  classifiers : list string;
  entry_points : gmap string (list string)
}.

(** The call of [setup] at the end of the script, as a function of the
    value of the variable [version] (the operation [build] of the
    specification). *)
Definition setup_call (version : string) : setup_arguments := {|
  name := "stetho";
  packages := ["stetho"];
  version := version;
  description := "Scripting interface for the Stetho Android debugging bridge";
  author := "Josh Guilfoyle";
  author_email := "jasta@devtcg.org";
  url := "https://github.com/facebook/stetho";
  keywords := ["debug"; "dumpapp"; "android"];
  classifiers := [
    "Development Status :: 5 - Production/Stable";
    "Intended Audience :: Developers";
    "Topic :: Software Development :: Debuggers";
    "Topic :: Software Development :: Testing"
  ];
  entry_points := {[ "console_scripts" := ["dumpapp=stetho:dumpapp_main"] ]}
|}.

(** What one run of the script does: the lines it prints, the calls of
    [setup] it makes, and the exception that ends it, if any. What [setup]
    itself does with its arguments is outside the script. *)
Record Run : Type := {
  stdout : list string;
  setup_calls : list setup_arguments;
  raised : option exn
}.

Definition script (w : World) : Run :=
  match read_version_name w with
  | Raise x => {| stdout := []; setup_calls := []; raised := Some x |}
  | Ok version =>
      {| stdout := ["Version is " +:+ version];
         setup_calls := [setup_call version];
         raised := None |}
  end.

(** ** Vocabulary of the statements *)

(** The text [_read] keeps of a line: nothing for a full-line comment,
    the stripped line otherwise. A line is blank when this text is empty. *)
Definition line_value (line : string) : string :=
  if configparser.is_comment line then "" else Str.strip line.

(** The indentation [_read] measures ([cur_indent_level]). *)
Definition indent (line : string) : nat := default 0 (Str.first_nonspace line).

(** The line has the shape of a section header. *)
Definition is_header (line : string) : bool :=
  bool_decide (is_Some (configparser.SECTCRE_match (line_value line))).

(** The option name and the value [_read] stores for a line that it reads
    as an option line. *)
Definition assignment (line : string) : option (string * string) :=
  match configparser.OPTCRE_match (line_value line) with
  | Some (o, v) => Some (configparser.optionxform (Str.rstrip o), Str.strip v)
  | None => None
  end.

Definition key_of (line : string) : option string := fst <$> assignment line.

Definition keys (lines : list string) : list string := omap key_of lines.

(** A line of a flat properties file: blank, a comment, or an option line
    that is not indented, is no section header and has a name. *)
Definition flat_line (line : string) : bool :=
  match line_value line with
  | EmptyString => true
  | value =>
      bool_decide (indent line = 0) && negb (is_header line)
      && match configparser.OPTCRE_match value with
         | Some (String _ _, _) => true
         | _ => false
         end
  end.

(** A line that is no option line: it is not blank, not a comment, no
    section header, and it holds no delimiter or nothing before its first
    delimiter. [_read] rejects it unless it continues a value. *)
Definition malformed_line (line : string) : bool :=
  match line_value line with
  | EmptyString => false
  | value =>
      negb (is_header line)
      && match configparser.OPTCRE_match value with
         | Some (String _ _, _) => false
         | _ => true
         end
  end.

(** White space only. *)
Fixpoint all_space (s : string) : bool :=
  match s with
  | EmptyString => true
  | String c s' => Str.isspace c && all_space s'
  end.

(** The text holds one of the delimiters. *)
Fixpoint has_delimiter (s : string) : bool :=
  match s with
  | EmptyString => false
  | String c s' => configparser.is_delimiter c || has_delimiter s'
  end.

(** The exceptions [_read] raises in the middle of a file in strict mode. *)
Definition is_duplicate_error (x : exn) : Prop :=
  match x with
  | DuplicateSectionError _ _ _ | DuplicateOptionError _ _ _ _ => True
  | _ => False
  end.

(** The state of [_read] after the line [[properties]] that the script
    puts before the file. *)
Definition after_header : configparser.read_state :=
  configparser.ReadState
    (configparser.Parser (<["properties" := ∅]> ∅) ∅)
    ({["properties"]} ∪ ∅) ∅ (Some "properties") None 0 None.

(** The name under which the parser stores [VERSION_NAME]. *)
Definition version_key : string := configparser.optionxform "VERSION_NAME".

(** The path of the file the script opens, and the text of that file, if
    the file exists. *)
Definition filename_of (w : World) : string :=
  gradle_properties (posixpath.dirname (realpath_of_file w)).

Definition gradle_file (w : World) : option string :=
  files w (os.resolve (getcwd w) (filename_of w)).

(** A world for the examples: the script lies in [scripts/dist] of a
    checkout, and the file [gradle.properties] of the checkout, when
    there is one, holds [text]. *)
Definition checkout (text : option string) : World := {|
  realpath_of_file := "/home/user/stetho/scripts/dist/setup.py";
  getcwd := "/tmp";
  files := λ p, if decide (p = "/home/user/stetho/gradle.properties")
                then text else None
|}.

Definition EOL : string := String LF "".

(** What the script does with the parser once [read_file] has returned:
    [config['properties']['VERSION_NAME']]. *)
Definition lookup_version (config : configparser.parser string) : result string :=
  properties ← configparser.getitem config "properties";
  configparser.proxy_getitem config properties "VERSION_NAME".

(** The end of [_read]: the values are joined, and a pending
    [ParsingError] is raised. *)
Definition finish (fpname : string) (st : configparser.read_state)
  : result (configparser.parser string) :=
  match configparser.exc st with
  | Some errors => Raise (ParsingError fpname errors)
  | None => Ok (configparser._join_multiline_values (configparser.self st))
  end.

Section ReadLineSpec.
Import configparser.

Variable fpname : string.

(** The branch [read_line] takes, with what decides it. *)
Inductive read_line_spec (st : read_state) (lineno : nat) (line : string)
  : result read_state → Prop :=
| RL_skip :
    line_value line = "" →
    is_comment line = true ∨ open_option st = None →
    read_line_spec st lineno line (Ok st)
| RL_empty name opt :
    line_value line = "" → is_comment line = false →
    open_option st = Some (name, opt) →
    read_line_spec st lineno line (cursect_append st name opt "")
| RL_continuation name opt :
    line_value line ≠ "" → open_option st = Some (name, opt) →
    indent_level st < indent line →
    read_line_spec st lineno line
      (cursect_append st name opt (line_value line))
| RL_header header :
    line_value line ≠ "" →
    open_option st = None ∨ indent line ≤ indent_level st →
    SECTCRE_match (line_value line) = Some header →
    read_line_spec st lineno line
      (read_header st fpname lineno (indent line) header)
| RL_missing_header :
    line_value line ≠ "" →
    SECTCRE_match (line_value line) = None →
    sectname st = None →
    read_line_spec st lineno line
      (Raise (MissingSectionHeaderError fpname lineno line))
| RL_option name o v :
    line_value line ≠ "" →
    open_option st = None ∨ indent line ≤ indent_level st →
    SECTCRE_match (line_value line) = None →
    sectname st = Some name →
    OPTCRE_match (line_value line) = Some (o, v) →
    read_line_spec st lineno line
      (read_option st fpname lineno (indent line) line name o v)
| RL_error name :
    line_value line ≠ "" →
    open_option st = None ∨ indent line ≤ indent_level st →
    SECTCRE_match (line_value line) = None →
    sectname st = Some name →
    OPTCRE_match (line_value line) = None →
    read_line_spec st lineno line
      (Ok (ReadState (self st) (added_sections st) (added_options st)
             (sectname st) (optname st) (indent line)
             (_handle_error (exc st) lineno line))).

End ReadLineSpec.

(** The invariant of the loop of [_read] once a section is open: the
    option a continuation line would extend is in the current section. *)
Definition well_formed (st : configparser.read_state) : Prop :=
  is_Some (configparser.sectname st)
  ∧ ∀ name o, configparser.open_option st = Some (name, o) →
      is_Some (configparser.cursect (configparser.self st) name !! o).

(** No section of the parser, nor its defaults, holds the option [k]. *)
Definition lacks_key {V : Type} (k : string) (p : configparser.parser V) : Prop :=
  configparser._defaults p !! k = None
  ∧ ∀ s d, configparser._sections p !! s = Some d → d !! k = None.

(** The state of [_read] inside the section [properties] of a file that
    has opened no other section: [d] is the dictionary of the section. *)
Definition in_properties (st : configparser.read_state)
    (d : gmap string (list string)) : Prop :=
  configparser.sectname st = Some "properties"
  ∧ configparser.self st = configparser.Parser {["properties" := d]} ∅.

(** The line has the shape of an option line with the name [k] (in lower
    case): it is no section header, and [OPTCRE] matches it. *)
Definition option_line (line : string) (k : string) : Prop :=
  is_header line = false ∧ key_of line = Some k.

(** The loop of [_read], started after the line [[properties]], reaches
    the state [st] at the end of the lines [before]. *)
Definition reaches (fpname : string) (before : list string)
    (st : configparser.read_state) : Prop :=
  configparser.read_lines fpname after_header 2 before = Ok st.

(** In the state [st], the line is not read as the continuation of a value:
    no option is open, or the line is not indented deeper than the line
    that opened it. A line that is not indented never is a continuation. *)
Definition not_continued (st : configparser.read_state) (line : string) : Prop :=
  configparser.open_option st = None
  ∨ indent line ≤ configparser.indent_level st.

(** The invariant of the loop of [_read] over a flat file: the parser is
    in the section [properties] with the dictionary [d], no line has been
    rejected, and the options recorded in [elements_added] and the option
    a continuation would extend are in [d]. *)
Definition flat_state (st : configparser.read_state)
    (d : gmap string (list string)) : Prop :=
  in_properties st d
  ∧ configparser.exc st = None
  ∧ (∀ k, ("properties", k) ∈ configparser.added_options st → is_Some (d !! k))
  ∧ (∀ o, configparser.optname st = Some o → is_Some (d !! o)).

(** A component of a canonical path: a name that is not empty, not [.],
    not [..], and holds no separator. *)
Definition simple_component (c : string) : bool :=
  negb (bool_decide (c = "" ∨ c = "."))
  && negb (bool_decide (c = ".."))
  && negb (Str.contains posixpath.sep c).

(** The parent of a directory given by its components; the root is its
    own parent. *)
Definition parent (dirs : list string) : list string := rev (tail (rev dirs)).

(** Example files. *)
Definition commented_file : string :=
  "# release settings" +:+ EOL +:+ EOL +:+ "VERSION_NAME = 1.2.3" +:+ EOL.

Definition unparsable_file : string :=
  "VERSION_NAME = 1.2.3" +:+ EOL +:+ "release" +:+ EOL.

Definition other_keys_file : string :=
  "GROUP = com.facebook.stetho" +:+ EOL +:+ "VERSION_CODE = 7" +:+ EOL.

Definition repeated_key_file : string :=
  "VERSION_NAME = 1.2.3" +:+ EOL +:+ "GROUP = com.facebook.stetho" +:+ EOL
  +:+ "VERSION_NAME = 1.2.4" +:+ EOL.

Definition flat_file : string :=
  "# release settings" +:+ EOL
  +:+ "GROUP=com.facebook.stetho" +:+ EOL
  +:+ EOL
  +:+ "Version_Name   =  1.2.3  " +:+ EOL
  +:+ "POM_URL: https://github.com/facebook/stetho" +:+ EOL.

Definition continued_file : string :=
  "VERSION_NAME = 1.2.3" +:+ EOL
  +:+ "    GROUP = com.facebook.stetho" +:+ EOL.

Definition same_value_twice_file : string :=
  "VERSION_NAME = 1.2.3" +:+ EOL +:+ "VERSION_NAME = 1.2.3" +:+ EOL.

Definition two_spellings_file : string :=
  "version_name = 1.2.3" +:+ EOL +:+ "VERSION_NAME = 1.2.3" +:+ EOL.

Definition percent_file : string :=
  "version_name = 1.2.3%" +:+ EOL.

Definition spaced_file : string :=
  "# release settings" +:+ EOL
  +:+ "GROUP=com.facebook.stetho" +:+ EOL
  +:+ EOL
  +:+ "VERSION_NAME   =  1.2.3  " +:+ EOL
  +:+ "POM_URL: https://github.com/facebook/stetho" +:+ EOL.

(** ** Vocabulary of the further properties *)

(** The exceptions of [BasicInterpolation]. *)
Definition is_interpolation_error (x : exn) : Prop :=
  match x with
  | InterpolationSyntaxError _ _
  | InterpolationMissingOptionError _ _ _ _
  | InterpolationDepthError _ _ _ => True
  | _ => False
  end.

(** The exceptions that end [read_version_name] once the file is open
    and its text is read: a section or an option is repeated, some lines
    do not parse, the key is missing, or the value does not interpolate. *)
Definition reading_error (w : World) (x : exn) : Prop :=
  is_duplicate_error x
  ∨ (∃ errors, x = ParsingError (filename_of w) errors ∧ errors ≠ [])
  ∨ x = KeyError "VERSION_NAME"
  ∨ is_interpolation_error x.

(** Example files of the further properties. *)
Definition own_header_file : string :=
  "# settings" +:+ EOL +:+ "[properties]" +:+ EOL
  +:+ "VERSION_NAME = 1.2.3" +:+ EOL.

(** The text [s] with every percent sign doubled: the way to write [s] as
    a value that [BasicInterpolation] reads back as [s]. *)
Fixpoint escape_percent (s : string) : string :=
  match s with
  | EmptyString => EmptyString
  | String c s' =>
      if Str.eqb c "%"%char
      then String "%"%char (String "%"%char (escape_percent s'))
      else String c (escape_percent s')
  end.

(** The text does not start with a percent sign or an opening
    parenthesis: after a percent sign it makes no valid interpolation. *)
Definition no_interpolation_start (s : string) : bool :=
  match s with
  | EmptyString => true
  | String c _ => negb (Str.eqb c "%"%char) && negb (Str.eqb c "("%char)
  end.

Definition escaped_file : string :=
  "GROUP = com.facebook.stetho" +:+ EOL +:+ "VERSION_NAME = 100%% pure" +:+ EOL.

Definition lone_percent_file : string :=
  "VERSION_NAME = 1.2.3-50%done" +:+ EOL.

Definition reference_file : string :=
  "VERSION_NAME = v%(Base)s-SNAPSHOT" +:+ EOL +:+ "BASE = 1.2.3" +:+ EOL.

Definition dangling_reference_file : string :=
  "VERSION_NAME = v%(Base)s-SNAPSHOT" +:+ EOL +:+ "GROUP = 1.2.3" +:+ EOL.

(** The file assigns the value [v] to the option [k]. *)
Definition assigned (lines : list string) (k v : string) : Prop :=
  ∃ line, line ∈ lines ∧ assignment line = Some (k, v).

Definition reordered_file : string :=
  "POM_URL: https://github.com/facebook/stetho" +:+ EOL
  +:+ "version_name=1.2.3" +:+ EOL
  +:+ "; the group" +:+ EOL
  +:+ "GROUP = com.facebook.stetho" +:+ EOL.

Definition colon_file : string :=
  "GROUP=com.facebook.stetho" +:+ EOL
  +:+ "Version_Name :  1.2.3=rc:1 #final " +:+ EOL.

(** A line that continues the value of the option before it, after an
    option line that is not indented: it is not blank, not a comment, and
    it is indented. *)
Definition continuation_line (line : string) : bool :=
  match line_value line with
  | EmptyString => false
  | _ => bool_decide (0 < indent line)
  end.

Definition multiline_file : string :=
  "VERSION_NAME = 1.2.3" +:+ EOL
  +:+ "    release candidate" +:+ EOL
  +:+ "  # two" +:+ EOL
  +:+ EOL
  +:+ "GROUP = com.facebook.stetho" +:+ EOL.

(** The name of the section a line opens when [_read] takes it for a
    section header: the group [header] of [SECTCRE]. *)
Definition section_of (line : string) : option string :=
  configparser.SECTCRE_match (line_value line).

(** Neither the section [properties] nor the defaults hold the option
    [k]: the two dictionaries the proxy of [properties] looks into. *)
Definition not_in_properties {V : Type} (k : string)
    (p : configparser.parser V) : Prop :=
  configparser._defaults p !! k = None
  ∧ ∀ d, configparser._sections p !! "properties" = Some d → d !! k = None.

(** The state of [_read] inside a section other than [properties] and
    the defaults, in a file that holds no option [k] before. *)
Definition elsewhere (k : string) (st : configparser.read_state) : Prop :=
  (∃ s, configparser.sectname st = Some s
        ∧ s ≠ "properties" ∧ s ≠ configparser.DEFAULTSECT)
  ∧ is_Some (configparser._sections (configparser.self st) !! "properties")
  ∧ "properties" ∈ configparser.added_sections st
  ∧ not_in_properties k (configparser.self st).

(** The state of [_read] under the header [[DEFAULT]], once the defaults
    hold the value [v] of the option [k], which the section [properties]
    lacks. *)
Definition in_defaults (k v : string) (st : configparser.read_state) : Prop :=
  configparser.sectname st = Some configparser.DEFAULTSECT
  ∧ (configparser.DEFAULTSECT, k) ∈ configparser.added_options st
  ∧ configparser.join_value
      <$> (configparser._defaults (configparser.self st) !! k) = Some v
  ∧ ∃ d, configparser._sections (configparser.self st) !! "properties" = Some d
         ∧ d !! k = None.

Definition self_reference_file : string :=
  "GROUP = com.facebook.stetho" +:+ EOL
  +:+ "VERSION_NAME = 1.2.3-%(Version_Name)s-x" +:+ EOL.

Definition other_section_file : string :=
  "GROUP = com.facebook.stetho" +:+ EOL
  +:+ "[release]" +:+ EOL
  +:+ "VERSION_NAME = 1.2.3" +:+ EOL
  +:+ "[debug]" +:+ EOL
  +:+ "VERSION_NAME = 1.2.3-SNAPSHOT" +:+ EOL.

Definition default_section_file : string :=
  "GROUP = com.facebook.stetho" +:+ EOL
  +:+ "[DEFAULT]" +:+ EOL
  +:+ "VERSION_NAME = 1.2.3" +:+ EOL
  +:+ EOL
  +:+ "ARTIFACT = stetho" +:+ EOL.

(** * Properties *)

(** ** The descriptor *)

(** C7. For every version, the descriptor passed to [setup] has that
    version, every other field is the literal of the script, the entry
    points hold the one group [console_scripts] with the one script
    [dumpapp=stetho:dumpapp_main], and equal versions give equal
    descriptors (the version is the only field that varies). *)
Theorem setup_call_fixed_fields (v : string) :
  version (setup_call v) = v
  ∧ name (setup_call v) = "stetho"
  ∧ packages (setup_call v) = ["stetho"]
  ∧ description (setup_call v)
    = "Scripting interface for the Stetho Android debugging bridge"
  ∧ author (setup_call v) = "Josh Guilfoyle"
  ∧ author_email (setup_call v) = "jasta@devtcg.org"
  ∧ url (setup_call v) = "https://github.com/facebook/stetho"
  ∧ keywords (setup_call v) = ["debug"; "dumpapp"; "android"]
  ∧ classifiers (setup_call v)
    = ["Development Status :: 5 - Production/Stable";
       "Intended Audience :: Developers";
       "Topic :: Software Development :: Debuggers";
       "Topic :: Software Development :: Testing"]
  ∧ entry_points (setup_call v) !! "console_scripts"
    = Some ["dumpapp=stetho:dumpapp_main"]
  ∧ dom (entry_points (setup_call v)) = ({["console_scripts"]} : gset string)
  ∧ (∀ v' : string, v = v' ↔ setup_call v = setup_call v').
Proof.
  do 10 (split; [done|]).
  split; [apply dom_singleton_L|].
  intros v'. split; [by intros ->|].
  intros Heq. apply (f_equal version) in Heq. exact Heq.
Qed.

(** ** One line of [_read] *)

Section ReadLine.
Import configparser.

Variable fpname : string.

Lemma read_lineP st lineno line :
  read_line_spec fpname st lineno line (read_line fpname st lineno line).
Proof.
  unfold read_line. fold (indent line).
  destruct (is_comment line) eqn:Hc.
  - apply RL_skip; [unfold line_value; by rewrite Hc | by left].
  - assert (line_value line = Str.strip line) as Hv
      by (unfold line_value; by rewrite Hc).
    rewrite <- Hv.
    destruct (line_value line) as [|c value] eqn:Hval.
    + destruct (open_option st) as [[name opt]|] eqn:Hopen.
      * by eapply RL_empty.
      * apply RL_skip; [done | by right].
    + rewrite <- Hval.
      assert (line_value line ≠ "") as Hne by (by rewrite Hval).
      destruct (open_option st) as [[name opt]|] eqn:Hopen.
      * destruct (Nat.ltb_spec (indent_level st) (indent line)) as [Hlt|Hge].
        { eapply RL_continuation; eauto. }
        destruct (SECTCRE_match (line_value line)) as [header|] eqn:Hs.
        { apply RL_header; auto. }
        destruct (sectname st) as [name'|] eqn:Hsn.
        2:{ by apply RL_missing_header. }
        destruct (OPTCRE_match (line_value line)) as [[o v]|] eqn:Ho.
        { eapply RL_option; eauto. }
        rewrite <- Hsn. eapply RL_error; eauto.
      * destruct (SECTCRE_match (line_value line)) as [header|] eqn:Hs.
        { apply RL_header; auto. }
        destruct (sectname st) as [name'|] eqn:Hsn.
        2:{ by apply RL_missing_header. }
        destruct (OPTCRE_match (line_value line)) as [[o v]|] eqn:Ho.
        { eapply RL_option; eauto. }
        rewrite <- Hsn. eapply RL_error; eauto.
Qed.

End ReadLine.

(** ** Invariants of the loop of [_read] *)

Section Invariants.
Import configparser.

Variable fpname : string.

Lemma cursect_set_cursect p name d : cursect (set_cursect p name d) name = d.
Proof.
  unfold cursect, set_cursect.
  destruct (decide (name = DEFAULTSECT)); simpl; [done|].
  by rewrite lookup_insert_eq.
Qed.

Lemma open_option_inv st name o :
  open_option st = Some (name, o) →
  sectname st = Some name ∧ optname st = Some o ∧ o ≠ "".
Proof.
  unfold open_option.
  destruct (sectname st), (optname st) as [[|c o']|]; intros; by simplify_eq.
Qed.

Lemma open_option_fields st st' :
  sectname st' = sectname st → optname st' = optname st →
  open_option st' = open_option st.
Proof. unfold open_option. by intros -> ->. Qed.

Lemma cursect_append_well_formed st name opt value :
  well_formed st → open_option st = Some (name, opt) →
  ∃ st', cursect_append st name opt value = Ok st' ∧ well_formed st'
    ∧ sectname st' = sectname st ∧ optname st' = optname st
    ∧ exc st' = exc st ∧ added_options st' = added_options st
    ∧ added_sections st' = added_sections st
    ∧ indent_level st' = indent_level st.
Proof.
  intros [Hsect Hwf] Hopen. unfold cursect_append.
  destruct (Hwf _ _ Hopen) as [l Hl]. rewrite Hl.
  eexists. split; [done|]. split; [|done].
  split; [done|]. intros name' o'.
  rewrite (open_option_fields st) by done.
  rewrite Hopen. intros [= <- <-]. simpl.
  rewrite cursect_set_cursect, lookup_insert_eq. by eexists.
Qed.

Lemma read_line_well_formed st lineno line :
  well_formed st →
  match read_line fpname st lineno line with
  | Ok st' => well_formed st'
  | Raise x => is_duplicate_error x
  end.
Proof.
  intros Hwf.
  destruct (read_lineP fpname st lineno line)
    as [?|name opt ???|name opt ???|header ???|???|name o v ?????|name ?????].
  - done.
  - by destruct (cursect_append_well_formed st name opt "" Hwf)
      as (st' & -> & ? & _).
  - by destruct (cursect_append_well_formed st name opt (line_value line) Hwf)
      as (st' & -> & ? & _).
  - unfold read_header.
    destruct (_sections (self st) !! header); repeat case_decide; try done;
      (split; [by eexists | intros ??; unfold open_option; by simpl]).
  - destruct Hwf as [[? Hs] _]. congruence.
  - unfold read_option. case_decide; [done|].
    split; [by eexists|]. intros name' o'. unfold open_option. simpl.
    case_match; [done|]. intros [= <- <-].
    rewrite cursect_set_cursect, lookup_insert_eq. by eexists.
  - destruct Hwf as [Hs Hopen]. split; [done|]. intros name' o' Ho.
    apply Hopen. by rewrite <- Ho.
Qed.

Lemma cursect_append_fields st name opt value st' :
  cursect_append st name opt value = Ok st' →
  sectname st' = sectname st ∧ optname st' = optname st
  ∧ exc st' = exc st ∧ added_options st' = added_options st
  ∧ added_sections st' = added_sections st
  ∧ indent_level st' = indent_level st.
Proof.
  unfold cursect_append. destruct (_ !! opt); [|done]. by intros [= <-].
Qed.

Lemma read_header_fields st lineno level header st' :
  read_header st fpname lineno level header = Ok st' →
  exc st' = exc st ∧ added_options st' = added_options st
  ∧ sectname st' = Some header ∧ optname st' = None.
Proof.
  unfold read_header.
  destruct (_ !! header); repeat case_decide; try done; by intros [= <-].
Qed.

(** A pending [ParsingError] only grows. *)
Lemma read_line_exc st lineno line st' errors e :
  read_line fpname st lineno line = Ok st' →
  exc st = Some errors → e ∈ errors →
  ∃ errors', exc st' = Some errors' ∧ e ∈ errors'.
Proof.
  intros Hstep Hexc He.
  destruct (read_lineP fpname st lineno line)
    as [?|name opt ???|name opt ???|header ???|???|name o v ?????|name ?????].
  - simplify_eq. eauto.
  - apply cursect_append_fields in Hstep as (_ & _ & -> & _). eauto.
  - apply cursect_append_fields in Hstep as (_ & _ & -> & _). eauto.
  - apply read_header_fields in Hstep as (-> & _). eauto.
  - done.
  - unfold read_option in Hstep. case_decide; [done|].
    injection Hstep as <-. simpl. rewrite Hexc.
    destruct o; [|by eauto]. unfold _handle_error. simpl.
    eexists. split; [done|]. apply elem_of_app. by left.
  - injection Hstep as <-. simpl. rewrite Hexc. unfold _handle_error. simpl.
    eexists. split; [done|]. apply elem_of_app. by left.
Qed.

Lemma malformed_line_inv line :
  malformed_line line = true →
  line_value line ≠ ""
  ∧ SECTCRE_match (line_value line) = None
  ∧ (OPTCRE_match (line_value line) = None
     ∨ ∃ v, OPTCRE_match (line_value line) = Some ("", v)).
Proof.
  unfold malformed_line, is_header.
  destruct (line_value line) as [|c value] eqn:Hv; [done|].
  rewrite <- Hv. intros H.
  apply andb_prop in H as [Hhead Hopt].
  apply negb_true_iff, bool_decide_eq_false in Hhead.
  split; [by rewrite Hv|]. split.
  { destruct (SECTCRE_match _); [|done]. destruct Hhead. by eexists. }
  destruct (OPTCRE_match _) as [[[|??] ?]|]; eauto. done.
Qed.

Lemma unindented_not_continued st line : indent line = 0 → not_continued st line.
Proof. intros H. right. lia. Qed.

(** A malformed line that is not a continuation is recorded in the pending
    [ParsingError]. *)
Lemma read_line_malformed st lineno line :
  well_formed st → malformed_line line = true → not_continued st line →
  match read_line fpname st lineno line with
  | Ok st' => ∃ errors, exc st' = Some errors ∧ (lineno, line) ∈ errors
  | Raise x => is_duplicate_error x
  end.
Proof.
  intros Hwf (Hne & Hsect & Hopt)%malformed_line_inv Hcont.
  destruct (read_lineP fpname st lineno line)
    as [?|name opt ???|name opt ???|header ???|???|name o v ?????|name ?????];
    try congruence.
  - destruct Hcont; [congruence|lia].
  - destruct Hwf as [[? Hs] _]. congruence.
  - destruct Hopt as [?|[v' Hv']]; [congruence|].
    assert (o = "") as -> by congruence.
    unfold read_option. case_decide; [done|]. simpl.
    unfold _handle_error. eexists. split; [done|].
    apply elem_of_app. right. apply list_elem_of_singleton. done.
  - unfold _handle_error. simpl. eexists. split; [done|].
    apply elem_of_app. right. by apply list_elem_of_singleton.
Qed.

(** *** The whole loop *)

Lemma read_lines_app st lineno l1 l2 :
  read_lines fpname st lineno (l1 ++ l2)
  = (st' ← read_lines fpname st lineno l1;
     read_lines fpname st' (lineno + length l1) l2).
Proof.
  revert st lineno. induction l1 as [|line l1 IH]; intros st lineno; simpl.
  - by rewrite Nat.add_0_r.
  - destruct (read_line fpname st lineno line) as [st'|x]; simpl; [|done].
    rewrite IH. by rewrite Nat.add_succ_r.
Qed.

Lemma read_lines_well_formed st lineno lines :
  well_formed st →
  match read_lines fpname st lineno lines with
  | Ok st' => well_formed st'
  | Raise x => is_duplicate_error x
  end.
Proof.
  revert st lineno. induction lines as [|line lines IH]; intros st lineno Hwf.
  - done.
  - simpl. pose proof (read_line_well_formed st lineno line Hwf) as Hstep.
    destruct (read_line fpname st lineno line) as [st'|x]; simpl; [|done].
    by apply IH.
Qed.

Lemma read_lines_exc st lineno lines st' errors e :
  read_lines fpname st lineno lines = Ok st' →
  exc st = Some errors → e ∈ errors →
  ∃ errors', exc st' = Some errors' ∧ e ∈ errors'.
Proof.
  revert st lineno errors.
  induction lines as [|line lines IH]; intros st lineno errors; simpl.
  - intros [= <-]. eauto.
  - destruct (read_line fpname st lineno line) as [st1|x] eqn:Hstep; [|done].
    simpl. intros Hrest Hexc He.
    destruct (read_line_exc _ _ _ _ _ _ Hstep Hexc He) as (errors1 & ? & ?).
    eauto.
Qed.

(** A property of the state that every line of a kind preserves is
    preserved by the loop over lines of that kind. *)
Lemma read_lines_invariant (I : read_state → Prop) (P : string → Prop) :
  (∀ st lineno line st',
      I st → P line → read_line fpname st lineno line = Ok st' → I st') →
  ∀ lines st lineno st',
    I st → Forall P lines →
    read_lines fpname st lineno lines = Ok st' → I st'.
Proof.
  intros Hstep lines.
  induction lines as [|line lines IH]; intros st lineno st' HI HP; simpl.
  - by intros [= <-].
  - apply Forall_cons in HP as [Hline HP].
    destruct (read_line fpname st lineno line) as [st1|x] eqn:H1; [|done].
    simpl. apply IH; [|done]. eauto.
Qed.

(** A file with a malformed line that is not a continuation does not
    parse. *)
Lemma read_lines_malformed st lineno pre line post :
  well_formed st → malformed_line line = true →
  (∀ st1, read_lines fpname st lineno pre = Ok st1 → not_continued st1 line) →
  match read_lines fpname st lineno (pre ++ line :: post) with
  | Ok st' =>
      ∃ errors, exc st' = Some errors ∧ (lineno + length pre, line) ∈ errors
  | Raise x => is_duplicate_error x
  end.
Proof.
  intros Hwf Hbad Hcont. rewrite read_lines_app.
  pose proof (read_lines_well_formed st lineno pre Hwf) as Hpre.
  destruct (read_lines fpname st lineno pre) as [st1|x]; simpl; [|done].
  pose proof (read_line_malformed st1 (lineno + length pre) line Hpre Hbad
                (Hcont st1 eq_refl)) as Hline.
  destruct (read_line fpname st1 _ line) as [st2|x] eqn:Hstep; simpl; [|done].
  destruct Hline as (errors & Hexc & He).
  pose proof (read_line_well_formed st1 (lineno + length pre) line Hpre) as Hwf2.
  rewrite Hstep in Hwf2.
  pose proof (read_lines_well_formed st2 (S (lineno + length pre)) post Hwf2)
    as Hpost.
  destruct (read_lines fpname st2 _ post) as [st3|x] eqn:Hrest; [|done].
  destruct (read_lines_exc _ _ _ _ _ _ Hrest Hexc He) as (errors' & ? & ?).
  eauto.
Qed.

End Invariants.

(** ** From the loop to the script *)

Lemma after_header_well_formed : well_formed after_header.
Proof. split; [by eexists|]. intros ??. unfold configparser.open_option. by simpl. Qed.

Lemma read_first_line fpname :
  configparser.read_line fpname configparser.initial 1 "[properties]"
  = Ok after_header.
Proof. reflexivity. Qed.

(** [read_file] on the chain the script builds: the loop of [_read] runs
    over the lines of the file from the state [after_header], at line 2. *)
Lemma read_file_properties (fpname : string) (lines : list string) :
  configparser.read_file (chain ["[properties]"] lines) fpname
  = (st ← configparser.read_lines fpname after_header 2 lines;
     finish fpname st).
Proof.
  unfold configparser.read_file, configparser._read, chain. simpl.
  rewrite read_first_line. simpl.
  destruct (configparser.read_lines _ _ _ _) as [st|x]; simpl; [|done].
  unfold finish. by destruct (configparser.exc st).
Qed.

(** The script, once the file is open. *)
Lemma read_version_name_open (w : World) (text : string) :
  gradle_file w = Some text →
  read_version_name w
  = (config ← configparser.read_file (chain ["[properties]"] (readlines text))
                (filename_of w);
     lookup_version config).
Proof.
  unfold gradle_file, read_version_name, os.open. fold (filename_of w).
  by intros ->.
Qed.

Lemma missing_file_lemma (w : World) :
  gradle_file w = None →
  read_version_name w = Raise (FileNotFoundError (filename_of w)).
Proof.
  unfold gradle_file, read_version_name, os.open. fold (filename_of w).
  by intros ->.
Qed.

Lemma script_raises (w : World) (x : exn) :
  read_version_name w = Raise x →
  script w = {| stdout := []; setup_calls := []; raised := Some x |}.
Proof. unfold script. by intros ->. Qed.

(** ** Lines that do not parse *)

(** C8, as amended. A file with a line that is not blank, not a comment,
    no section header, that holds no delimiter or nothing before its first
    delimiter, and that the parser does not read as the continuation of
    the value before it (a line that is not indented never is one), makes
    [read_version_name] fail: with the [ParsingError] that lists the line
    under its number, unless a repeated section or option has stopped the
    parse before with [DuplicateSectionError] or [DuplicateOptionError]. *)
Theorem malformed_line_is_fatal (w : World) (text : string)
    (pre post : list string) (line : string) :
  gradle_file w = Some text →
  readlines text = pre ++ line :: post →
  malformed_line line = true →
  (∀ st, reaches (filename_of w) pre st → not_continued st line) →
  ∃ x, read_version_name w = Raise x
       ∧ (is_duplicate_error x
          ∨ ∃ errors, x = ParsingError (filename_of w) errors
                      ∧ (2 + length pre, line) ∈ errors).
Proof.
  intros Hfile Hlines Hbad Hcont.
  rewrite (read_version_name_open w text Hfile), read_file_properties, Hlines.
  pose proof (read_lines_malformed (filename_of w) after_header 2 pre line post
                after_header_well_formed Hbad Hcont) as H.
  destruct (configparser.read_lines _ _ _ _) as [st|x]; simpl.
  - destruct H as (errors & Hexc & He). unfold finish. rewrite Hexc. simpl.
    eexists. split; [done|]. right. eauto.
  - eexists. split; [done|]. by left.
Qed.

Lemma malformed_line_is_fatal_witness :
  ∃ x, read_version_name (checkout (Some unparsable_file)) = Raise x
       ∧ (is_duplicate_error x
          ∨ ∃ errors,
              x = ParsingError (filename_of (checkout (Some unparsable_file)))
                    errors
              ∧ (2 + length ["VERSION_NAME = 1.2.3" +:+ EOL],
                 "release" +:+ EOL) ∈ errors).
Proof.
  apply (malformed_line_is_fatal _ unparsable_file
           ["VERSION_NAME = 1.2.3" +:+ EOL] [] ("release" +:+ EOL)).
  - reflexivity.
  - reflexivity.
  - reflexivity.
  - intros st Hst. right. vm_compute. lia.
Defined.

(** C8, as stated, fails: a comment and a blank line are no [key = value]
    pairs, and the file that holds them is read without error. *)
Lemma comment_line_is_accepted :
  readlines commented_file
  = ["# release settings" +:+ EOL; EOL; "VERSION_NAME = 1.2.3" +:+ EOL]
  ∧ assignment ("# release settings" +:+ EOL) = None
  ∧ assignment EOL = None
  ∧ read_version_name (checkout (Some commented_file)) = Ok "1.2.3".
Proof. repeat split; reflexivity. Qed.

(** ** A file without the key *)

Section MissingKey.
Import configparser.

Variable fpname : string.

Lemma lacks_key_cursect k (p : parser (list string)) name :
  lacks_key k p → cursect p name !! k = None.
Proof.
  intros [Hd Hs]. unfold cursect. case_decide; [done|].
  destruct (_sections p !! name) as [d|] eqn:E; simpl; [eauto|done].
Qed.

Lemma lacks_key_set_cursect k (p : parser (list string)) name d :
  lacks_key k p → d !! k = None → lacks_key k (set_cursect p name d).
Proof.
  intros [Hd Hs] Hk. unfold set_cursect.
  case_decide; (split; simpl; [by eauto|]); [done|].
  intros s d'. rewrite lookup_insert. case_decide; naive_solver.
Qed.

Lemma cursect_append_lacks_key k st name opt value st' :
  lacks_key k (self st) →
  cursect_append st name opt value = Ok st' → lacks_key k (self st').
Proof.
  intros Hk. unfold cursect_append.
  destruct (cursect (self st) name !! opt) as [l|] eqn:Hl; [|done].
  intros [= <-]. simpl. apply lacks_key_set_cursect; [done|].
  pose proof (lacks_key_cursect k (self st) name Hk) as Hnone.
  rewrite lookup_insert_ne; [done|]. congruence.
Qed.

Lemma read_line_lacks_key k st lineno line st' :
  lacks_key k (self st) → key_of line ≠ Some k →
  read_line fpname st lineno line = Ok st' → lacks_key k (self st').
Proof.
  intros Hk Hline Hstep.
  destruct (read_lineP fpname st lineno line)
    as [?|name opt ???|name opt ???|header ???|???|name o v ?? Hs Hn Ho|name ?????].
  - by simplify_eq.
  - by eapply cursect_append_lacks_key.
  - by eapply cursect_append_lacks_key.
  - unfold read_header in Hstep. destruct Hk as [Hd Hsec].
    destruct (_sections (self st) !! header) eqn:E;
      repeat case_decide; simplify_eq; simpl; try done.
    split; simpl; [done|]. intros s d. rewrite lookup_insert.
    case_decide; [by intros [= <-]|eauto].
  - done.
  - unfold read_option in Hstep. case_decide; [done|].
    injection Hstep as <-. simpl. apply lacks_key_set_cursect; [done|].
    rewrite lookup_insert_ne; [by apply lacks_key_cursect|].
    intros Heq. apply Hline. unfold key_of, assignment.
    rewrite Ho. simpl. by rewrite Heq.
  - by simplify_eq.
Qed.

(** Sections are never removed. *)
Lemma read_line_sections st lineno line st' s :
  read_line fpname st lineno line = Ok st' →
  is_Some (_sections (self st) !! s) → is_Some (_sections (self st') !! s).
Proof.
  intros Hstep Hsome.
  assert (∀ name d, is_Some (_sections (set_cursect (self st) name d) !! s))
    as Hset.
  { intros name d. unfold set_cursect. case_decide; simpl; [done|].
    rewrite lookup_insert. by case_decide. }
  destruct (read_lineP fpname st lineno line)
    as [?|name opt ???|name opt ???|header ???|???|name o v ?????|name ?????].
  - by simplify_eq.
  - unfold cursect_append in Hstep.
    destruct (_ !! opt); simplify_eq. apply Hset.
  - unfold cursect_append in Hstep.
    destruct (_ !! opt); simplify_eq. apply Hset.
  - unfold read_header in Hstep.
    destruct (_sections (self st) !! header) eqn:E;
      repeat case_decide; simplify_eq; simpl; try done.
    rewrite lookup_insert. by case_decide.
  - done.
  - unfold read_option in Hstep. case_decide; [done|].
    injection Hstep as <-. apply Hset.
  - by simplify_eq.
Qed.

Lemma join_lacks_key k (p : parser (list string)) :
  lacks_key k p → lacks_key k (_join_multiline_values p).
Proof.
  intros [Hd Hs]. split; simpl.
  - by rewrite lookup_fmap, Hd.
  - intros s d. rewrite lookup_fmap.
    destruct (_sections p !! s) as [d0|] eqn:E; simpl; [|done].
    intros [= <-]. by rewrite lookup_fmap, (Hs _ _ E).
Qed.

Lemma lookup_version_lacks_key (config : parser string) :
  lacks_key version_key config →
  is_Some (_sections config !! "properties") →
  lookup_version config = Raise (KeyError "VERSION_NAME").
Proof.
  intros [Hd Hs] [d Hsec]. unfold lookup_version, getitem, has_section.
  rewrite Hsec, (bool_decide_true (is_Some (Some d))) by by eexists.
  rewrite andb_false_r. simpl bind.
  unfold proxy_getitem, has_option.
  destruct (decide ("properties" = DEFAULTSECT)) as [?|_]; [done|].
  rewrite Hsec. fold version_key. rewrite (Hs _ _ Hsec), Hd.
  rewrite !bool_decide_false by by intros [? ?]. done.
Qed.

End MissingKey.

(** C3. When the file exists and parses, and none of its lines assigns
    the key (the parser compares option names in lower case), then
    [read_version_name] raises [KeyError] for [VERSION_NAME]; the script
    stops on it: nothing is printed and [setup] is not called. *)
Theorem missing_key_is_fatal (w : World) (text : string) :
  gradle_file w = Some text →
  (∃ config,
      configparser.read_file (chain ["[properties]"] (readlines text))
        (filename_of w) = Ok config) →
  Forall (λ line, key_of line ≠ Some version_key) (readlines text) →
  read_version_name w = Raise (KeyError "VERSION_NAME")
  ∧ script w = {| stdout := []; setup_calls := [];
                  raised := Some (KeyError "VERSION_NAME") |}.
Proof.
  intros Hfile [config Hparse] Hkeys.
  assert (read_version_name w = Raise (KeyError "VERSION_NAME")) as Hr.
  { rewrite (read_version_name_open w text Hfile), Hparse. simpl.
    rewrite read_file_properties in Hparse.
    destruct (configparser.read_lines _ _ _ _) as [st|x] eqn:Hloop; [|done].
    simpl in Hparse. unfold finish in Hparse.
    destruct (configparser.exc st); [done|]. injection Hparse as <-.
    apply lookup_version_lacks_key.
    - apply join_lacks_key.
      eapply (read_lines_invariant (filename_of w)
                (λ st, lacks_key version_key (configparser.self st))
                (λ line, key_of line ≠ Some version_key)); [|..|exact Hloop];
        [|split; [done|]|done].
      + intros ?????. by apply read_line_lacks_key.
      + intros s d. simpl. rewrite lookup_insert.
        case_decide; [by intros [= <-]|done].
    - simpl. rewrite lookup_fmap.
      assert (is_Some (configparser._sections (configparser.self st)
                       !! "properties")) as [d ->]; [|by eexists].
      eapply (read_lines_invariant (filename_of w)
                (λ st, is_Some (configparser._sections (configparser.self st)
                                !! "properties"))
                (λ _, True)); [|..|exact Hloop].
      + intros ????? _ ?. by eapply read_line_sections.
      + by eexists.
      + by apply Forall_true. }
  split; [exact Hr|]. by apply script_raises.
Qed.

Lemma missing_key_is_fatal_witness :
  read_version_name (checkout (Some other_keys_file))
  = Raise (KeyError "VERSION_NAME")
  ∧ script (checkout (Some other_keys_file))
    = {| stdout := []; setup_calls := [];
         raised := Some (KeyError "VERSION_NAME") |}.
Proof.
  apply (missing_key_is_fatal _ other_keys_file).
  - reflexivity.
  - eexists. vm_compute. reflexivity.
  - repeat constructor; by vm_compute.
Defined.

(** ** Files without section header *)

Section Properties.
Import configparser.

Variable fpname : string.

Lemma in_properties_cursect st d :
  in_properties st d → cursect (self st) "properties" = d.
Proof.
  intros [_ ->]. unfold cursect.
  destruct (decide _) as [?|_]; [done|]. simpl.
  by rewrite lookup_singleton_eq.
Qed.

Lemma in_properties_set_cursect st d d' :
  in_properties st d →
  set_cursect (self st) "properties" d' = Parser {["properties" := d']} ∅.
Proof.
  intros [_ ->]. unfold set_cursect.
  destruct (decide _) as [?|_]; [done|]. simpl.
  by rewrite insert_singleton_eq.
Qed.

Lemma in_properties_open_option st d name opt :
  in_properties st d → open_option st = Some (name, opt) →
  name = "properties".
Proof.
  intros [Hs _] (Hn & _)%open_option_inv. congruence.
Qed.

Lemma not_header_inv line :
  is_header line = false → SECTCRE_match (line_value line) = None.
Proof.
  unfold is_header. intros H%bool_decide_eq_false.
  destruct (SECTCRE_match _); [|done]. destruct H. by eexists.
Qed.

(** Without section header the parser stays in the section
    [properties], and that section is the only one. *)
Lemma read_line_in_properties st lineno line st' :
  (∃ d, in_properties st d) → is_header line = false →
  read_line fpname st lineno line = Ok st' → ∃ d', in_properties st' d'.
Proof.
  intros [d Hin] Hhead%not_header_inv Hstep.
  destruct (read_lineP fpname st lineno line)
    as [?|name opt ?? Ho|name opt ? Ho ?|header ???|???|name o v ?????|name ?????].
  - simplify_eq. eauto.
  - rewrite (in_properties_open_option _ _ _ _ Hin Ho) in Hstep.
    unfold cursect_append in Hstep. destruct (_ !! opt); [|done].
    rewrite (in_properties_set_cursect _ d) in Hstep by done.
    injection Hstep as <-. eexists. split; [apply Hin|done].
  - rewrite (in_properties_open_option _ _ _ _ Hin Ho) in Hstep.
    unfold cursect_append in Hstep. destruct (_ !! opt); [|done].
    rewrite (in_properties_set_cursect _ d) in Hstep by done.
    injection Hstep as <-. eexists. split; [apply Hin|done].
  - congruence.
  - done.
  - assert (name = "properties") as -> by (destruct Hin; congruence).
    unfold read_option in Hstep. case_decide; [done|].
    rewrite (in_properties_set_cursect _ d) in Hstep by done.
    injection Hstep as <-. eexists. by split.
  - injection Hstep as <-. exists d. split; [apply Hin|]. simpl. apply Hin.
Qed.

Lemma read_lines_in_properties st lineno lines st' :
  (∃ d, in_properties st d) → Forall (λ line, is_header line = false) lines →
  read_lines fpname st lineno lines = Ok st' → ∃ d', in_properties st' d'.
Proof.
  apply (read_lines_invariant fpname (λ st, ∃ d, in_properties st d)
           (λ line, is_header line = false)).
  intros ?????. by apply read_line_in_properties.
Qed.

Lemma after_header_in_properties : in_properties after_header ∅.
Proof. done. Qed.

End Properties.

(** ** Repeated keys *)

Section Duplicates.
Import configparser.

Variable fpname : string.

Lemma read_line_added_options st lineno line st' :
  read_line fpname st lineno line = Ok st' →
  added_options st ⊆ added_options st'.
Proof.
  intros Hstep.
  destruct (read_lineP fpname st lineno line)
    as [?|name opt ???|name opt ???|header ???|???|name o v ?????|name ?????].
  - by simplify_eq.
  - by apply cursect_append_fields in Hstep as (_ & _ & _ & -> & _).
  - by apply cursect_append_fields in Hstep as (_ & _ & _ & -> & _).
  - by apply read_header_fields in Hstep as (_ & -> & _).
  - done.
  - unfold read_option in Hstep. case_decide; [done|].
    injection Hstep as <-. simpl. apply union_subseteq_r.
  - by simplify_eq.
Qed.

Lemma option_line_inv line k :
  option_line line k →
  line_value line ≠ ""
  ∧ SECTCRE_match (line_value line) = None
  ∧ ∃ o v, OPTCRE_match (line_value line) = Some (o, v)
           ∧ k = optionxform (Str.rstrip o).
Proof.
  intros (Hhead%not_header_inv & Hkey).
  unfold key_of, assignment in Hkey.
  destruct (OPTCRE_match (line_value line)) as [[o v]|] eqn:Ho; [|done].
  injection Hkey as <-. split; [|by eauto 6].
  intros Hv. by rewrite Hv in Ho.
Qed.

(** An assignment is recorded in [elements_added], and a second
    assignment of the same option in the same section is refused. *)
Lemma read_line_option st lineno line k :
  sectname st = Some "properties" → not_continued st line →
  option_line line k →
  match read_line fpname st lineno line with
  | Ok st' => ("properties", k) ∈ added_options st'
  | Raise x =>
      x = DuplicateOptionError "properties" k fpname lineno
      ∧ ("properties", k) ∈ added_options st
  end.
Proof.
  intros Hin Hcont (Hne & Hsect & o & v & Ho & ->)%option_line_inv.
  destruct (read_lineP fpname st lineno line)
    as [?|name opt ???|name opt ???|header ???|???|name o' v' ?????|name ?????];
    try congruence.
  - destruct Hcont; [congruence|lia].
  - assert (name = "properties") as -> by congruence.
    assert (o' = o) as -> by congruence.
    unfold read_option. case_decide; [done|]. simpl.
    apply elem_of_union. left. by apply elem_of_singleton.
Qed.

Lemma read_line_option_again st lineno line k :
  sectname st = Some "properties" → not_continued st line →
  option_line line k →
  ("properties", k) ∈ added_options st →
  read_line fpname st lineno line
  = Raise (DuplicateOptionError "properties" k fpname lineno).
Proof.
  intros Hin Hcont (Hne & Hsect & o & v & Ho & ->)%option_line_inv Hadded.
  destruct (read_lineP fpname st lineno line)
    as [?|name opt ???|name opt ???|header ???|???|name o' v' ?????|name ?????];
    try congruence.
  - destruct Hcont; [congruence|lia].
  - assert (name = "properties") as -> by congruence.
    assert (o' = o) as -> by congruence.
    unfold read_option. by rewrite decide_True.
Qed.

Lemma read_lines_added_options lines :
  ∀ st lineno,
    well_formed st →
    match read_lines fpname st lineno lines with
    | Ok st' => well_formed st' ∧ added_options st ⊆ added_options st'
    | Raise x => is_duplicate_error x
    end.
Proof.
  induction lines as [|line lines IH]; intros st lineno Hwf; simpl.
  - done.
  - pose proof (read_line_well_formed fpname st lineno line Hwf) as Hwf1.
    destruct (read_line fpname st lineno line) as [st1|x] eqn:Hstep; simpl;
      [|done].
    pose proof (read_line_added_options _ _ _ _ Hstep) as Hsub.
    specialize (IH st1 (S lineno) Hwf1).
    destruct (read_lines fpname st1 (S lineno) lines); [|done].
    destruct IH as (? & ?). split; [done|]. by etrans.
Qed.

(** The loop up to the second of two assignments of an option: either it
    has stopped on a repeated section or option, or the option is
    recorded in [elements_added]. *)
Lemma read_lines_first_assignment pre l1 mid k :
  option_line l1 k →
  (∀ st, reaches fpname pre st →
         sectname st = Some "properties" ∧ not_continued st l1) →
  match read_lines fpname after_header 2 (pre ++ l1 :: mid) with
  | Ok st => ("properties", k) ∈ added_options st
  | Raise x => is_duplicate_error x
  end.
Proof.
  intros H1 Hpre. rewrite read_lines_app.
  pose proof (read_lines_well_formed fpname after_header 2 pre
                after_header_well_formed) as Hwf1.
  unfold reaches in Hpre.
  destruct (read_lines fpname after_header 2 pre) as [st1|x]; simpl; [|done].
  destruct (Hpre st1 eq_refl) as [Hsect Hcont].
  pose proof (read_line_option st1 (2 + length pre) l1 k Hsect Hcont H1) as Hl1.
  pose proof (read_line_well_formed fpname st1 (2 + length pre) l1 Hwf1) as Hwf2.
  destruct (read_line fpname st1 _ l1) as [st2|x]; simpl; [|done].
  pose proof (read_lines_added_options mid st2 (S (2 + length pre)) Hwf2) as Hmid.
  destruct (read_lines fpname st2 _ mid) as [st3|x]; [|done].
  destruct Hmid as [_ Hsub]. by apply Hsub.
Qed.

End Duplicates.

(** C10. When two lines of the file have the shape of an option line with
    the same name (compared in lower case), and the parser reads both in
    the section [properties] and not as continuations of a value (a line
    that is not indented never is one), [read_version_name] returns
    neither value: the parse stops on a repeated section or option, and
    when it reaches the second of the two lines, it stops there with
    [DuplicateOptionError] for that option in the section [properties]. *)
Theorem duplicate_key_is_rejected (w : World) (text : string)
    (pre mid post : list string) (l1 l2 : string) (k : string) :
  gradle_file w = Some text →
  readlines text = pre ++ l1 :: mid ++ l2 :: post →
  option_line l1 k → option_line l2 k →
  (∀ st, reaches (filename_of w) pre st →
         configparser.sectname st = Some "properties" ∧ not_continued st l1) →
  (∀ st, reaches (filename_of w) (pre ++ l1 :: mid) st →
         configparser.sectname st = Some "properties" ∧ not_continued st l2) →
  ∃ x, read_version_name w = Raise x
       ∧ is_duplicate_error x
       ∧ (∀ st, reaches (filename_of w) (pre ++ l1 :: mid) st →
            x = DuplicateOptionError "properties" k (filename_of w)
                  (2 + length (pre ++ l1 :: mid))).
Proof.
  intros Hfile Hlines H1 H2 Hpre Hmid.
  rewrite (read_version_name_open w text Hfile), read_file_properties, Hlines.
  replace (pre ++ l1 :: mid ++ l2 :: post)
    with ((pre ++ l1 :: mid) ++ l2 :: post) by (by rewrite <- app_assoc).
  set (f := filename_of w) in *.
  rewrite read_lines_app.
  pose proof (read_lines_first_assignment f pre l1 mid k H1 Hpre) as Hrun.
  unfold reaches in *.
  destruct (configparser.read_lines f after_header 2 (pre ++ l1 :: mid))
    as [st|x]; simpl.
  - destruct (Hmid st eq_refl) as [Hsect Hcont].
    rewrite (read_line_option_again f st _ l2 k Hsect Hcont H2 Hrun). simpl.
    eexists. split; [done|]. split; [done|]. done.
  - exists x. split; [done|]. split; [done|]. by intros st.
Qed.

Lemma duplicate_key_is_rejected_witness :
  ∃ x, read_version_name (checkout (Some repeated_key_file)) = Raise x
       ∧ is_duplicate_error x
       ∧ (∀ st, reaches (filename_of (checkout (Some repeated_key_file)))
                  ([] ++ ("VERSION_NAME = 1.2.3" +:+ EOL)
                      :: ["GROUP = com.facebook.stetho" +:+ EOL]) st →
            x = DuplicateOptionError "properties" version_key
                  (filename_of (checkout (Some repeated_key_file)))
                  (2 + length ([] ++ ("VERSION_NAME = 1.2.3" +:+ EOL)
                                  :: ["GROUP = com.facebook.stetho" +:+ EOL]))).
Proof.
  apply (duplicate_key_is_rejected _ repeated_key_file
           [] ["GROUP = com.facebook.stetho" +:+ EOL] []
           ("VERSION_NAME = 1.2.3" +:+ EOL) ("VERSION_NAME = 1.2.4" +:+ EOL)
           version_key).
  - reflexivity.
  - reflexivity.
  - by split.
  - by split.
  - intros st Hst. split; [|right; vm_compute; lia].
    vm_compute in Hst. by injection Hst as <-.
  - intros st Hst. split; [|right; vm_compute; lia].
    vm_compute in Hst. by injection Hst as <-.
Defined.

(** ** Strings *)

Section Strings.

Lemma append_cons c (s t : string) : String c s +:+ t = String c (s +:+ t).
Proof. reflexivity. Qed.

Lemma append_nil_r (s : string) : s +:+ "" = s.
Proof. induction s as [|c s IH]; [done|]. by rewrite append_cons, IH. Qed.

Lemma append_assoc (s t u : string) : (s +:+ t) +:+ u = s +:+ (t +:+ u).
Proof. induction s as [|c s IH]; [done|]. by rewrite !append_cons, IH. Qed.

Lemma rstrip_cons c s :
  Str.rstrip (String c s)
  = match Str.rstrip s with
    | EmptyString => if Str.isspace c then EmptyString else String c EmptyString
    | r => String c r
    end.
Proof. reflexivity. Qed.

Lemma rstrip_all_space s : all_space s = true → Str.rstrip s = "".
Proof.
  induction s as [|c s IH]; [done|]. simpl all_space.
  intros [Hc Hs]%andb_prop. by rewrite rstrip_cons, IH, Hc.
Qed.

Lemma rstrip_append_space s t :
  all_space t = true → Str.rstrip (s +:+ t) = Str.rstrip s.
Proof.
  intros Ht. induction s as [|c s IH].
  - by apply rstrip_all_space.
  - by rewrite append_cons, !rstrip_cons, IH.
Qed.

Lemma rstrip_idemp s : Str.rstrip (Str.rstrip s) = Str.rstrip s.
Proof.
  induction s as [|c s IH]; [done|]. rewrite rstrip_cons.
  destruct (Str.rstrip s) as [|a r] eqn:Hr.
  - destruct (Str.isspace c) eqn:Hc; [done|]. by rewrite rstrip_cons, Hc.
  - by rewrite rstrip_cons, IH.
Qed.

Lemma rstrip_lstrip s : Str.rstrip s = s → Str.rstrip (Str.lstrip s) = Str.lstrip s.
Proof.
  induction s as [|c s IH]; [done|]. intros Hs. simpl Str.lstrip.
  destruct (Str.isspace c) eqn:Hc; [|done]. apply IH.
  rewrite rstrip_cons, Hc in Hs. destruct (Str.rstrip s); [done|].
  by injection Hs.
Qed.

Lemma rstrip_strip s : Str.rstrip (Str.strip s) = Str.strip s.
Proof. unfold Str.strip. apply rstrip_lstrip, rstrip_idemp. Qed.

Lemma lstrip_append_space s t :
  all_space s = true → Str.lstrip (s +:+ t) = Str.lstrip t.
Proof.
  induction s as [|c s IH]; [done|]. simpl all_space.
  intros [Hc Hs]%andb_prop. rewrite append_cons. simpl. rewrite Hc. auto.
Qed.

Lemma join_snoc_empty sep x l :
  Str.join sep ((x :: l) ++ [""]) = Str.join sep (x :: l) +:+ sep.
Proof.
  revert x. induction l as [|y l IH]; intros x.
  - simpl. by rewrite append_nil_r.
  - change (Str.join sep ((x :: y :: l) ++ [""]))
      with (x +:+ sep +:+ Str.join sep ((y :: l) ++ [""])).
    rewrite IH.
    change (Str.join sep (x :: y :: l)) with (x +:+ sep +:+ Str.join sep (y :: l)).
    by rewrite !append_assoc.
Qed.

Lemma join_value_single v :
  configparser.join_value [Str.strip v] = Str.strip v.
Proof. apply rstrip_strip. Qed.

Lemma join_value_snoc_empty l :
  configparser.join_value (l ++ [""]) = configparser.join_value l.
Proof.
  unfold configparser.join_value. destruct l as [|x l]; [done|].
  rewrite join_snoc_empty. by apply rstrip_append_space.
Qed.

End Strings.

(** ** Interpolation of a value without reference *)

Lemma interpolate_loop_plain recurse opt section rawval map value accum :
  Str.contains "%"%char value = false →
  configparser.interpolate_loop recurse opt section rawval map value accum
  = Ok (accum +:+ value).
Proof.
  revert accum. induction value as [|c value IH]; intros accum Hplain.
  - simpl. by rewrite append_nil_r.
  - change (Str.eqb "%"%char c || Str.contains "%"%char value = false) in Hplain.
    apply orb_false_elim in Hplain as [Hc Hplain].
    assert (Str.eqb c "%"%char = false) as Hc'.
    { unfold Str.eqb in *. by rewrite Ascii.eqb_sym. }
    simpl. rewrite Hc'. simpl. rewrite IH by done. by rewrite append_assoc.
Qed.

Lemma before_get_plain section opt value map :
  Str.contains "%"%char value = false →
  configparser.before_get section opt value map = Ok value.
Proof.
  intros H. unfold configparser.before_get. simpl.
  by rewrite interpolate_loop_plain.
Qed.

(** ** The lookup in a parser that holds the section [properties] only *)

Section Lookup.
Import configparser.

Lemma join_in_properties st d :
  in_properties st d →
  _join_multiline_values (self st)
  = Parser {["properties" := join_value <$> d]} ∅.
Proof.
  intros [_ ->]. unfold _join_multiline_values. simpl.
  by rewrite map_fmap_singleton, fmap_empty.
Qed.

Lemma lookup_version_properties (d : gmap string string) :
  ∃ m, _unify_values (Parser {["properties" := d]} ∅) "properties" = Ok m
       ∧ (∀ k, m k = d !! k)
       ∧ lookup_version (Parser {["properties" := d]} ∅)
         = match d !! version_key with
           | Some value => before_get "properties" version_key value m
           | None => Raise (KeyError "VERSION_NAME")
           end.
Proof.
  unfold _unify_values. simpl _sections. rewrite lookup_singleton_eq.
  eexists. split; [done|]. split.
  { intros k. simpl. by destruct (d !! k). }
  unfold lookup_version, getitem, has_section. simpl _sections.
  rewrite lookup_singleton_eq.
  rewrite (bool_decide_true (is_Some (Some d))) by by eexists.
  rewrite andb_false_r. simpl bind.
  unfold proxy_getitem, has_option, get, _unify_values.
  destruct (decide ("properties" = DEFAULTSECT)) as [?|_]; [done|].
  simpl _sections. simpl _defaults. rewrite lookup_singleton_eq.
  fold version_key. simpl bind.
  destruct (d !! version_key) as [value|] eqn:Hv.
  - rewrite (bool_decide_true (is_Some (Some value))) by by eexists. done.
  - rewrite !bool_decide_false by by intros [? ?]. done.
Qed.

End Lookup.

(** ** Flat files *)

Section Flat.
Import configparser.

Variable fpname : string.

Lemma flat_state_well_formed st d : flat_state st d → well_formed st.
Proof.
  intros (Hin & _ & _ & Hopt). split; [destruct Hin as [-> _]; by eexists|].
  intros name o Hopen.
  rewrite (in_properties_open_option _ _ _ _ Hin Hopen).
  rewrite (in_properties_cursect _ _ Hin).
  apply open_option_inv in Hopen as (_ & Ho & _). by apply Hopt.
Qed.

Lemma flat_line_inv line :
  flat_line line = true →
  line_value line = ""
  ∨ (line_value line ≠ "" ∧ indent line = 0
     ∧ SECTCRE_match (line_value line) = None
     ∧ ∃ c o v, OPTCRE_match (line_value line) = Some (String c o, v)).
Proof.
  unfold flat_line.
  destruct (line_value line) as [|c value] eqn:Hv; [by left|].
  rewrite <- Hv. intros H. right.
  apply andb_prop in H as [H Hopt]. apply andb_prop in H as [Hind Hhead].
  apply bool_decide_eq_true in Hind. apply negb_true_iff in Hhead.
  split; [by rewrite Hv|]. split; [done|].
  split; [by apply not_header_inv|].
  destruct (OPTCRE_match _) as [[[|??] ?]|]; try done. eauto.
Qed.

Lemma assignment_blank line : line_value line = "" → assignment line = None.
Proof. unfold assignment. by intros ->. Qed.

(** One line of a flat file. *)
Lemma flat_step st d lineno line :
  flat_state st d → flat_line line = true →
  (∀ k, key_of line = Some k → d !! k = None) →
  ∃ st' d',
    read_line fpname st lineno line = Ok st' ∧ flat_state st' d'
    ∧ match assignment line with
      | Some (k, v) => d' = <[k := [v]]> d
      | None => ∀ k, join_value <$> (d' !! k) = join_value <$> (d !! k)
      end.
Proof.
  intros Hflat Hline Hfresh.
  pose proof (flat_state_well_formed _ _ Hflat) as Hwf.
  destruct Hflat as (Hin & Hexc & Hadded & Hopt).
  apply flat_line_inv in Hline
    as [Hblank|(Hne & Hind & Hsect & c & o & v & Ho)].
  - rewrite (assignment_blank _ Hblank).
    destruct (read_lineP fpname st lineno line)
      as [?|name opt ?? Hopen|name opt ???|header ???|???|name o v ?????|name ?????];
      try congruence.
    + exists st, d. split; [done|]. split; [|done]. by unfold flat_state.
    + rewrite (in_properties_open_option _ _ _ _ Hin Hopen).
      unfold cursect_append.
      rewrite (in_properties_cursect _ _ Hin).
      apply open_option_inv in Hopen as (_ & Hoptname & _).
      destruct (Hopt _ Hoptname) as [l Hl]. rewrite Hl.
      rewrite (in_properties_set_cursect _ d) by done.
      eexists _, (<[opt := l ++ [""]]> d). split; [done|]. split.
      * split; [split; [apply Hin|done]|]. split; [done|]. simpl. split.
        -- intros k Hk. rewrite lookup_insert. case_decide; [done|]. auto.
        -- intros o' Ho'. rewrite lookup_insert. case_decide; [done|]. auto.
      * intros k. rewrite lookup_insert. case_decide as Hk; [|done].
        subst k. rewrite Hl. simpl. by rewrite join_value_snoc_empty.
  - set (k := optionxform (Str.rstrip (String c o))).
    assert (assignment line = Some (k, Str.strip v)) as Hassign.
    { unfold assignment. by rewrite Ho. }
    assert (d !! k = None) as Hk.
    { apply Hfresh. unfold key_of. by rewrite Hassign. }
    rewrite Hassign.
    destruct (read_lineP fpname st lineno line)
      as [?|name opt ???|name opt ???|header ???|???|name o' v' ?????|name ?????];
      try congruence.
    + lia.
    + destruct Hin; congruence.
    + assert (name = "properties") as -> by (destruct Hin; congruence).
      assert (o' = String c o ∧ v' = v) as [-> ->] by (split; congruence).
      unfold read_option.
      rewrite (in_properties_cursect _ _ Hin).
      rewrite (in_properties_set_cursect _ d) by done.
      fold k. rewrite decide_False.
      2:{ intros [l Hl]%Hadded. by rewrite Hk in Hl. }
      eexists _, _. split; [done|]. split; [|done].
      split; [done|]. split; [done|]. simpl. split.
      * intros k' [[= ->]%elem_of_singleton|Hk']%elem_of_union.
        -- rewrite lookup_insert_eq. by eexists.
        -- rewrite lookup_insert. case_decide; [done|]. auto.
      * intros o' [= <-]. rewrite lookup_insert_eq. by eexists.
Qed.

Lemma keys_cons line lines :
  keys (line :: lines)
  = match key_of line with
    | Some k => k :: keys lines
    | None => keys lines
    end.
Proof. reflexivity. Qed.

(** The whole of a flat file without repeated key: every assignment of
    the file is in the dictionary of the section, under its joined
    value. *)
Lemma flat_run lines :
  ∀ st d lineno,
    flat_state st d → Forall (λ line, flat_line line = true) lines →
    NoDup (keys lines) → (∀ k, k ∈ keys lines → d !! k = None) →
    ∃ st' d',
      read_lines fpname st lineno lines = Ok st' ∧ flat_state st' d'
      ∧ (∀ line k v, line ∈ lines → assignment line = Some (k, v) →
           join_value <$> (d' !! k) = Some v)
      ∧ (∀ k, k ∉ keys lines →
           join_value <$> (d' !! k) = join_value <$> (d !! k)).
Proof.
  induction lines as [|line lines IH];
    intros st d lineno Hflat Hlines Hnodup Hfresh.
  - exists st, d. split; [done|]. split; [done|]. split; [|done].
    intros ??? Hin. by apply elem_of_nil in Hin.
  - apply Forall_cons in Hlines as [Hline Hlines].
    rewrite keys_cons in Hnodup, Hfresh.
    destruct (flat_step st d lineno line Hflat Hline) as (st1 & d1 & Hstep & Hflat1 & Hd1).
    { intros k Hk. apply Hfresh. rewrite Hk. apply list_elem_of_here. }
    simpl read_lines. rewrite Hstep. simpl bind.
    destruct (assignment line) as [[k v]|] eqn:Hassign.
    + assert (key_of line = Some k) as Hkey
        by (unfold key_of; by rewrite Hassign).
      rewrite Hkey in Hnodup, Hfresh.
      apply NoDup_cons in Hnodup as [Hk Hnodup]. subst d1.
      destruct (IH st1 (<[k := [v]]> d) (S lineno) Hflat1 Hlines Hnodup)
        as (st' & d' & Hrun & Hflat' & Hall & Hother).
      { intros k' Hk'. rewrite lookup_insert_ne by (intros ->; done).
        apply Hfresh. by apply list_elem_of_further. }
      exists st', d'. split; [done|]. split; [done|]. split.
      * intros line' k' v' [->|Hin]%elem_of_cons Hassign'.
        -- rewrite Hassign in Hassign'. injection Hassign' as <- <-.
           rewrite (Hother k Hk), lookup_insert_eq. simpl. f_equal.
           unfold assignment in Hassign.
           destruct (OPTCRE_match _) as [[o v0]|]; [|done].
           injection Hassign as _ <-. apply join_value_single.
        -- by eapply Hall.
      * rewrite keys_cons, Hkey. intros k' Hk'.
        rewrite (Hother k') by (intros ?; apply Hk'; by apply list_elem_of_further).
        rewrite lookup_insert_ne; [done|]. intros ->. apply Hk'.
        apply list_elem_of_here.
    + assert (key_of line = None) as Hkey
        by (unfold key_of; by rewrite Hassign).
      rewrite Hkey in Hnodup, Hfresh.
      destruct (IH st1 d1 (S lineno) Hflat1 Hlines Hnodup)
        as (st' & d' & Hrun & Hflat' & Hall & Hother).
      { intros k' Hk'. specialize (Hd1 k'). rewrite (Hfresh k' Hk') in Hd1.
        by destruct (d1 !! k'). }
      exists st', d'. split; [done|]. split; [done|]. split.
      * intros line' k' v' [->|Hin]%elem_of_cons Hassign'; [congruence|].
        by eapply Hall.
      * rewrite keys_cons, Hkey. intros k' Hk'. by rewrite (Hother k' Hk').
Qed.

Lemma after_header_flat_state : flat_state after_header ∅.
Proof.
  split; [apply after_header_in_properties|]. split; [done|]. split.
  - intros k Hk. simpl in Hk. by apply elem_of_empty in Hk.
  - intros o. by simpl.
Qed.

End Flat.

(** The script on a flat file without repeated key: for every assignment
    [k = v] of the file, the parser holds [v] under [k] in the section
    [properties]; in particular the lookup of [VERSION_NAME] finds the
    value assigned to any spelling of the key. *)
Lemma read_version_name_flat (w : World) (text line v : string) :
  gradle_file w = Some text →
  Forall (λ line, flat_line line = true) (readlines text) →
  NoDup (keys (readlines text)) →
  line ∈ readlines text →
  assignment line = Some (version_key, v) →
  ∃ m, read_version_name w
       = configparser.before_get "properties" version_key v m.
Proof.
  intros Hfile Hflat Hnodup Hin Hassign.
  rewrite (read_version_name_open w text Hfile), read_file_properties.
  destruct (flat_run (filename_of w) (readlines text) after_header ∅ 2
              after_header_flat_state Hflat Hnodup)
    as (st & d & -> & (Hprops & Hexc & _) & Hall & _); [done|].
  simpl. unfold finish. rewrite Hexc. simpl.
  rewrite (join_in_properties st d Hprops).
  destruct (lookup_version_properties (configparser.join_value <$> d))
    as (m & _ & _ & ->).
  rewrite lookup_fmap, (Hall line version_key v Hin Hassign). by exists m.
Qed.

(** ** The line of the version *)

Section VersionLine.
Import configparser.

Lemma rstrip_append_nonempty s t :
  Str.rstrip t ≠ "" → Str.rstrip (s +:+ t) = s +:+ Str.rstrip t.
Proof.
  intros Ht. induction s as [|c s IH]; [done|].
  rewrite !append_cons, rstrip_cons, IH.
  destruct (s +:+ Str.rstrip t) eqn:E; [|done].
  destruct s; [|done]. by destruct (Str.rstrip t).
Qed.

Lemma space_is_no_delimiter c : Str.isspace c = true → is_delimiter c = false.
Proof. destruct c as [[] [] [] [] [] [] [] []]; by vm_compute. Qed.

Lemma all_space_no_delimiter s : all_space s = true → has_delimiter s = false.
Proof.
  induction s as [|c s IH]; [done|]. simpl.
  intros [Hc Hs]%andb_prop. by rewrite (space_is_no_delimiter c Hc), IH.
Qed.

Lemma has_delimiter_app s t :
  has_delimiter (s +:+ t) = has_delimiter s || has_delimiter t.
Proof.
  induction s as [|c s IH]; [done|].
  rewrite append_cons. simpl. by rewrite IH, orb_assoc.
Qed.

Lemma partition_delimiter_app s d t :
  has_delimiter s = false → is_delimiter d = true →
  partition_delimiter (s +:+ String d t) = Some (s, t).
Proof.
  intros Hs Hd. induction s as [|c s IH].
  - simpl. by rewrite Hd.
  - simpl in Hs. apply orb_false_elim in Hs as [Hc Hs].
    rewrite append_cons. simpl. by rewrite Hc, IH.
Qed.

Lemma OPTCRE_match_rstripped value o v :
  OPTCRE_match value = Some (o, v) → Str.rstrip o = o.
Proof.
  unfold OPTCRE_match. destruct (partition_delimiter value) as [[k v']|]; [|done].
  intros [= <- _]. apply rstrip_idemp.
Qed.

Lemma contains_lstrip c s :
  Str.contains c s = false → Str.contains c (Str.lstrip s) = false.
Proof.
  induction s as [|a s IH]; [done|]. intros H. simpl Str.lstrip.
  destruct (Str.isspace a); [|done]. apply IH.
  simpl in H. by apply orb_false_elim in H as [_ ?].
Qed.

Lemma contains_rstrip c s :
  Str.contains c s = false → Str.contains c (Str.rstrip s) = false.
Proof.
  induction s as [|a s IH]; [done|]. intros H.
  change (Str.eqb c a || Str.contains c s = false) in H.
  apply orb_false_elim in H as [Ha Hs]. rewrite rstrip_cons.
  specialize (IH Hs). destruct (Str.rstrip s) as [|b r].
  - destruct (Str.isspace a); [done|]. simpl. by rewrite Ha.
  - change (Str.eqb c a || Str.contains c (String b r) = false).
    by rewrite Ha, IH.
Qed.

Lemma contains_strip c s :
  Str.contains c s = false → Str.contains c (Str.strip s) = false.
Proof. intros H. by apply contains_lstrip, contains_rstrip. Qed.

(** What [_read] makes of the line [VERSION_NAME = 1.2.3], whatever
    white space surrounds the delimiter and ends the line. *)
Lemma version_line ws1 ws2 ws3 :
  all_space ws1 = true → all_space ws2 = true → all_space ws3 = true →
  let line := "VERSION_NAME" +:+ ws1 +:+ "=" +:+ ws2 +:+ "1.2.3" +:+ ws3 in
  flat_line line = true ∧ assignment line = Some (version_key, "1.2.3").
Proof.
  intros H1 H2 H3 line.
  assert (Str.strip line = "VERSION_NAME" +:+ ws1 +:+ "=" +:+ ws2 +:+ "1.2.3")
    as Hstrip.
  { unfold Str.strip, line.
    replace ("VERSION_NAME" +:+ ws1 +:+ "=" +:+ ws2 +:+ "1.2.3" +:+ ws3)
      with (("VERSION_NAME" +:+ ws1 +:+ "=" +:+ ws2 +:+ "1.2.3") +:+ ws3)
      by (by rewrite !append_assoc).
    rewrite rstrip_append_space by done.
    replace ("VERSION_NAME" +:+ ws1 +:+ "=" +:+ ws2 +:+ "1.2.3")
      with (("VERSION_NAME" +:+ ws1 +:+ "=" +:+ ws2) +:+ "1.2.3")
      by (by rewrite !append_assoc).
    by rewrite rstrip_append_nonempty. }
  assert (line_value line
          = "VERSION_NAME" +:+ ws1 +:+ "=" +:+ ws2 +:+ "1.2.3") as Hvalue.
  { unfold line_value, is_comment. by rewrite Hstrip. }
  assert (OPTCRE_match ("VERSION_NAME" +:+ ws1 +:+ "=" +:+ ws2 +:+ "1.2.3")
          = Some ("VERSION_NAME", "1.2.3")) as Hopt.
  { unfold OPTCRE_match.
    replace ("VERSION_NAME" +:+ ws1 +:+ "=" +:+ ws2 +:+ "1.2.3")
      with (("VERSION_NAME" +:+ ws1) +:+ String "="%char (ws2 +:+ "1.2.3"))
      by (by rewrite !append_assoc).
    rewrite partition_delimiter_app; [|
      by rewrite has_delimiter_app, (all_space_no_delimiter ws1) | done].
    by rewrite rstrip_append_space, lstrip_append_space. }
  split.
  - unfold flat_line, is_header, indent. rewrite Hvalue.
    set (r := ws1 +:+ "=" +:+ ws2 +:+ "1.2.3") in *.
    change ("VERSION_NAME" +:+ r)
      with (String "V"%char ("ERSION_NAME" +:+ r)) in *.
    cbv beta iota. rewrite Hopt. done.
  - unfold assignment. by rewrite Hvalue, Hopt.
Qed.

End VersionLine.

(** C1, as amended. When the file holds the line [VERSION_NAME = 1.2.3],
    not indented, with any white space around the delimiter and at the
    end of the line, when every other line is blank, a comment, or an
    option line that is not indented, is no section header and has a
    name, and when no option is assigned twice, then [read_version_name]
    returns ["1.2.3"]. *)
Theorem version_line_is_read (w : World) (text : string)
    (pre post : list string) (ws1 ws2 ws3 : string) :
  gradle_file w = Some text →
  readlines text
  = pre ++ ("VERSION_NAME" +:+ ws1 +:+ "=" +:+ ws2 +:+ "1.2.3" +:+ ws3) :: post →
  all_space ws1 = true → all_space ws2 = true → all_space ws3 = true →
  Forall (λ line, flat_line line = true) (pre ++ post) →
  NoDup (keys (readlines text)) →
  read_version_name w = Ok "1.2.3".
Proof.
  intros Hfile Hlines H1 H2 H3 Hflat Hnodup.
  destruct (version_line ws1 ws2 ws3 H1 H2 H3) as [Hline Hassign].
  destruct (read_version_name_flat w text
              ("VERSION_NAME" +:+ ws1 +:+ "=" +:+ ws2 +:+ "1.2.3" +:+ ws3)
              "1.2.3" Hfile) as [m ->]; try done.
  - rewrite Hlines. apply Forall_app in Hflat as [Hpre Hpost].
    apply Forall_app. split; [done|]. by apply Forall_cons.
  - rewrite Hlines. apply elem_of_app. right. apply list_elem_of_here.
Qed.

Lemma version_line_is_read_witness :
  read_version_name (checkout (Some spaced_file)) = Ok "1.2.3".
Proof.
  apply (version_line_is_read _ spaced_file
           ["# release settings" +:+ EOL; "GROUP=com.facebook.stetho" +:+ EOL; EOL]
           ["POM_URL: https://github.com/facebook/stetho" +:+ EOL]
           "   " "  " ("  " +:+ EOL)).
  - reflexivity.
  - reflexivity.
  - reflexivity.
  - reflexivity.
  - reflexivity.
  - repeat constructor.
  - apply (bool_decide_unpack _). by vm_compute.
Defined.

(** C1, as stated, fails on files that hold the line: an indented line
    after it continues the value, and a second assignment of the key,
    even to the same value, stops the parse. *)
Lemma version_line_is_not_enough :
  readlines continued_file
  = ["VERSION_NAME = 1.2.3" +:+ EOL;
     "    GROUP = com.facebook.stetho" +:+ EOL]
  ∧ read_version_name (checkout (Some continued_file))
    = Ok ("1.2.3" +:+ EOL +:+ "GROUP = com.facebook.stetho")
  ∧ readlines same_value_twice_file
    = ["VERSION_NAME = 1.2.3" +:+ EOL; "VERSION_NAME = 1.2.3" +:+ EOL]
  ∧ read_version_name (checkout (Some same_value_twice_file))
    = Raise (DuplicateOptionError "properties" "version_name"
               "/home/user/stetho/scripts/dist/../../gradle.properties" 3).
Proof. repeat split; reflexivity. Qed.

(** ** Letter case *)

(** C9, as amended. In a file whose lines are blank, comments, or option
    lines that are not indented, are no section header and have a name, and
    in which no option is assigned twice (names compared in lower case),
    a line that assigns a value without percent sign to the key in any
    letter case makes [read_version_name] return that value, stripped. *)
Theorem lookup_ignores_case (w : World) (text line o v : string) :
  gradle_file w = Some text →
  Forall (λ line, flat_line line = true) (readlines text) →
  NoDup (keys (readlines text)) →
  line ∈ readlines text →
  configparser.OPTCRE_match (line_value line) = Some (o, v) →
  Str.lower o = Str.lower "VERSION_NAME" →
  Str.contains "%"%char v = false →
  read_version_name w = Ok (Str.strip v).
Proof.
  intros Hfile Hflat Hnodup Hin Hopt Hcase Hplain.
  destruct (read_version_name_flat w text line (Str.strip v) Hfile)
    as [m ->]; try done.
  - unfold assignment. rewrite Hopt. do 2 f_equal.
    rewrite (OPTCRE_match_rstripped _ _ _ Hopt). exact Hcase.
  - by apply before_get_plain, contains_strip.
Qed.

Lemma lookup_ignores_case_witness :
  read_version_name (checkout (Some flat_file)) = Ok (Str.strip "1.2.3").
Proof.
  apply (lookup_ignores_case _ flat_file
           ("Version_Name   =  1.2.3  " +:+ EOL) "Version_Name" "1.2.3").
  - reflexivity.
  - repeat constructor.
  - apply (bool_decide_unpack _). by vm_compute.
  - do 3 apply list_elem_of_further. apply list_elem_of_here.
  - reflexivity.
  - reflexivity.
  - reflexivity.
Defined.

(** C9, as stated, fails: two spellings of the key collide in the parser,
    and a percent sign in the value makes the lookup fail. *)
Lemma spelling_is_not_enough :
  readlines two_spellings_file
  = ["version_name = 1.2.3" +:+ EOL; "VERSION_NAME = 1.2.3" +:+ EOL]
  ∧ read_version_name (checkout (Some two_spellings_file))
    = Raise (DuplicateOptionError "properties" "version_name"
               "/home/user/stetho/scripts/dist/../../gradle.properties" 3)
  ∧ assignment ("version_name = 1.2.3%" +:+ EOL)
    = Some ("version_name", "1.2.3%")
  ∧ read_version_name (checkout (Some percent_file))
    = Raise (InterpolationSyntaxError "version_name" "properties").
Proof. repeat split; reflexivity. Qed.

(** ** The path of the file *)

Section Paths.

Lemma join_snoc sep y l x :
  Str.join sep ((y :: l) ++ [x]) = Str.join sep (y :: l) +:+ sep +:+ x.
Proof.
  revert y. induction l as [|z l IH]; intros y; [done|].
  change (Str.join sep ((y :: z :: l) ++ [x]))
    with (y +:+ sep +:+ Str.join sep ((z :: l) ++ [x])).
  rewrite IH.
  change (Str.join sep (y :: z :: l)) with (y +:+ sep +:+ Str.join sep (z :: l)).
  by rewrite !append_assoc.
Qed.

Lemma simple_component_inv c :
  simple_component c = true →
  c ≠ "" ∧ c ≠ "." ∧ c ≠ ".." ∧ Str.contains posixpath.sep c = false.
Proof.
  unfold simple_component.
  intros [[H1 H2]%andb_prop H3]%andb_prop.
  apply negb_true_iff, bool_decide_eq_false in H1.
  apply negb_true_iff, bool_decide_eq_false in H2.
  apply negb_true_iff in H3. naive_solver.
Qed.

Lemma contains_sep_cons c s :
  Str.contains posixpath.sep (String c s) = false →
  Str.eqb c posixpath.sep = false ∧ Str.contains posixpath.sep s = false.
Proof.
  change (Str.eqb posixpath.sep c || Str.contains posixpath.sep s = false
          → Str.eqb c posixpath.sep = false
            ∧ Str.contains posixpath.sep s = false).
  intros [H1 H2]%orb_false_elim. split; [|done].
  unfold Str.eqb in *. by rewrite Ascii.eqb_sym.
Qed.

(** *** [dirname] *)

Lemma head_of_cons c p :
  posixpath.head_of (String c p)
  = match posixpath.head_of p with
    | EmptyString =>
        if Str.eqb c posixpath.sep then String c EmptyString else EmptyString
    | h => String c h
    end.
Proof. reflexivity. Qed.

Lemma head_of_no_sep s :
  Str.contains posixpath.sep s = false → posixpath.head_of s = "".
Proof.
  induction s as [|c s IH]; [done|].
  intros [Hc Hs]%contains_sep_cons. by rewrite head_of_cons, IH, Hc.
Qed.

Lemma head_of_app s t :
  Str.contains posixpath.sep t = false →
  posixpath.head_of (s +:+ String posixpath.sep t)
  = s +:+ String posixpath.sep "".
Proof.
  intros Ht. induction s as [|c s IH].
  - change ("" +:+ String posixpath.sep t) with (String posixpath.sep t).
    by rewrite head_of_cons, head_of_no_sep.
  - rewrite !append_cons, head_of_cons, IH. by destruct s.
Qed.

Lemma rstrip_sep_cons c s :
  posixpath.rstrip_sep (String c s)
  = match posixpath.rstrip_sep s with
    | EmptyString =>
        if Str.eqb c posixpath.sep then EmptyString else String c EmptyString
    | r => String c r
    end.
Proof. reflexivity. Qed.

Lemma rstrip_sep_no_sep s :
  Str.contains posixpath.sep s = false → posixpath.rstrip_sep s = s.
Proof.
  induction s as [|c s IH]; [done|].
  intros [Hc Hs]%contains_sep_cons. rewrite rstrip_sep_cons, IH, Hc by done.
  by destruct s.
Qed.

Lemma rstrip_sep_append_sep s :
  posixpath.rstrip_sep (s +:+ String posixpath.sep "") = posixpath.rstrip_sep s.
Proof.
  induction s as [|c s IH]; [done|].
  by rewrite append_cons, !rstrip_sep_cons, IH.
Qed.

Lemma rstrip_sep_append_nonempty s t :
  posixpath.rstrip_sep t ≠ "" →
  posixpath.rstrip_sep (s +:+ t) = s +:+ posixpath.rstrip_sep t.
Proof.
  intros Ht. induction s as [|c s IH]; [done|].
  rewrite !append_cons, rstrip_sep_cons, IH.
  destruct (s +:+ posixpath.rstrip_sep t) eqn:E; [|done].
  destruct s; [|done]. by destruct (posixpath.rstrip_sep t).
Qed.

Lemma of_components_snoc y l x :
  os.of_components ((y :: l) ++ [x])
  = os.of_components (y :: l) +:+ String posixpath.sep x.
Proof.
  unfold os.of_components. rewrite join_snoc. by rewrite append_cons.
Qed.

(** A canonical path does not end with a separator, unless it is the
    root. *)
Lemma rstrip_sep_join p d dirs :
  Forall (λ c, simple_component c = true) (d :: dirs) →
  posixpath.rstrip_sep (p +:+ Str.join "/" (d :: dirs))
  = p +:+ Str.join "/" (d :: dirs).
Proof.
  revert p d. induction dirs as [|d' dirs IH]; intros p d Hsimple;
    apply Forall_cons in Hsimple as [Hd Hsimple];
    apply simple_component_inv in Hd as (Hne & _ & _ & Hd).
  - simpl Str.join.
    rewrite rstrip_sep_append_nonempty; by rewrite rstrip_sep_no_sep.
  - change (Str.join "/" (d :: d' :: dirs))
      with (d +:+ "/" +:+ Str.join "/" (d' :: dirs)).
    rewrite <- !append_assoc. by apply IH.
Qed.

Lemma rstrip_sep_of_components d dirs :
  Forall (λ c, simple_component c = true) (d :: dirs) →
  posixpath.rstrip_sep (os.of_components (d :: dirs))
  = os.of_components (d :: dirs).
Proof.
  intros Hsimple. unfold os.of_components.
  change (String posixpath.sep (Str.join "/" (d :: dirs)))
    with (String posixpath.sep "" +:+ Str.join "/" (d :: dirs)).
  by apply rstrip_sep_join.
Qed.

Lemma dirname_of_components dirs file :
  Forall (λ c, simple_component c = true) dirs →
  simple_component file = true →
  posixpath.dirname (os.of_components (dirs ++ [file]))
  = os.of_components dirs.
Proof.
  intros Hdirs (_ & _ & _ & Hfile)%simple_component_inv.
  unfold posixpath.dirname. destruct dirs as [|d dirs].
  - change (os.of_components ([] ++ [file]))
      with ("" +:+ String posixpath.sep file).
    by rewrite head_of_app.
  - rewrite of_components_snoc, head_of_app by done.
    rewrite rstrip_sep_append_sep, rstrip_sep_of_components by done.
    done.
Qed.

(** *** Resolution *)

Lemma split_cons c s :
  Str.split posixpath.sep (String c s)
  = if Str.eqb c posixpath.sep then "" :: Str.split posixpath.sep s
    else match Str.split posixpath.sep s with
         | [] => [String c ""]
         | x :: l => String c x :: l
         end.
Proof. reflexivity. Qed.

Lemma split_app s t :
  Str.contains posixpath.sep s = false →
  Str.split posixpath.sep (s +:+ String posixpath.sep t)
  = s :: Str.split posixpath.sep t.
Proof.
  induction s as [|c s IH]; [done|].
  intros [Hc Hs]%contains_sep_cons.
  by rewrite append_cons, split_cons, Hc, IH.
Qed.

Lemma split_join d dirs t :
  Forall (λ c, simple_component c = true) (d :: dirs) →
  Str.split posixpath.sep (Str.join "/" (d :: dirs) +:+ String posixpath.sep t)
  = (d :: dirs) ++ Str.split posixpath.sep t.
Proof.
  revert d. induction dirs as [|d' dirs IH]; intros d Hsimple;
    apply Forall_cons in Hsimple as [Hd Hsimple];
    apply simple_component_inv in Hd as (_ & _ & _ & Hd).
  - simpl Str.join. by rewrite split_app.
  - change (Str.join "/" (d :: d' :: dirs))
      with (d +:+ "/" +:+ Str.join "/" (d' :: dirs)).
    rewrite !append_assoc.
    change ("/" +:+ Str.join "/" (d' :: dirs) +:+ String posixpath.sep t)
      with (String posixpath.sep
              (Str.join "/" (d' :: dirs) +:+ String posixpath.sep t)).
    rewrite split_app by done. by rewrite IH.
Qed.

Lemma walk_simple dirs stack rest :
  Forall (λ c, simple_component c = true) dirs →
  os.walk stack (dirs ++ rest) = os.walk (rev dirs ++ stack) rest.
Proof.
  revert stack. induction dirs as [|d dirs IH]; intros stack Hsimple; [done|].
  apply Forall_cons in Hsimple as [Hd Hsimple].
  apply simple_component_inv in Hd as (H1 & H2 & H3 & _).
  simpl. rewrite decide_False by (by intros [?|?]). rewrite decide_False by done.
  rewrite IH by done. by rewrite <- app_assoc.
Qed.

Lemma resolve_gradle_properties cwd dirs :
  Forall (λ c, simple_component c = true) dirs →
  os.resolve cwd (gradle_properties (os.of_components dirs))
  = os.of_components (parent (parent dirs) ++ ["gradle.properties"]).
Proof.
  intros Hsimple. unfold os.resolve, gradle_properties.
  change (Str.startswith_char posixpath.sep
            (os.of_components dirs +:+ "/../../gradle.properties")) with true.
  cbv iota. f_equal.
  assert (os.walk [] (Str.split posixpath.sep
                        (os.of_components dirs +:+ "/../../gradle.properties"))
          = "gradle.properties" :: tail (tail (rev dirs))) as ->.
  { destruct dirs as [|d dirs]; [done|].
    unfold os.of_components. rewrite append_cons, split_cons.
    change (Str.eqb posixpath.sep posixpath.sep) with true. cbv iota.
    change "/../../gradle.properties"
      with (String posixpath.sep "../../gradle.properties").
    rewrite split_join by done.
    change (os.walk [] ("" :: (d :: dirs)
              ++ Str.split posixpath.sep "../../gradle.properties"))
      with (os.walk [] ((d :: dirs)
              ++ Str.split posixpath.sep "../../gradle.properties")).
    rewrite walk_simple by done. by rewrite app_nil_r. }
  unfold parent. by rewrite rev_involutive.
Qed.

End Paths.

(** C5. The script opens the path made of the directory of its own
    resolved location followed by [/../../gradle.properties]. For a
    canonical location [/d1/.../dn/file] this path resolves, whatever the
    working directory, to the file [gradle.properties] in the parent of
    the parent of [/d1/.../dn] (two levels up, the root being its own
    parent), and the result of [read_version_name] is determined by that
    file alone. *)
Theorem properties_file_location (w : World) (dirs : list string) (file : string) :
  Forall (λ c, simple_component c = true) dirs →
  simple_component file = true →
  realpath_of_file w = os.of_components (dirs ++ [file]) →
  filename_of w = os.of_components dirs +:+ "/../../gradle.properties"
  ∧ (∀ cwd, os.resolve cwd (filename_of w)
            = os.of_components (parent (parent dirs) ++ ["gradle.properties"]))
  ∧ read_version_name w
    = match files w (os.of_components
                       (parent (parent dirs) ++ ["gradle.properties"])) with
      | None => Raise (FileNotFoundError (filename_of w))
      | Some text =>
          config ← configparser.read_file
                     (chain ["[properties]"] (readlines text)) (filename_of w);
          lookup_version config
      end.
Proof.
  intros Hdirs Hfile Hanchor.
  assert (filename_of w = gradle_properties (os.of_components dirs)) as Hname.
  { unfold filename_of. by rewrite Hanchor, dirname_of_components. }
  split; [exact Hname|]. split.
  - intros cwd. rewrite Hname. by apply resolve_gradle_properties.
  - destruct (files w _) as [text|] eqn:Hopen.
    + apply read_version_name_open. unfold gradle_file.
      by rewrite Hname, resolve_gradle_properties.
    + apply missing_file_lemma. unfold gradle_file.
      by rewrite Hname, resolve_gradle_properties.
Qed.

Lemma properties_file_location_witness :
  filename_of (checkout None)
  = os.of_components ["home"; "user"; "stetho"; "scripts"; "dist"]
    +:+ "/../../gradle.properties"
  ∧ (∀ cwd, os.resolve cwd (filename_of (checkout None))
            = os.of_components
                (parent (parent ["home"; "user"; "stetho"; "scripts"; "dist"])
                 ++ ["gradle.properties"]))
  ∧ read_version_name (checkout None)
    = match files (checkout None)
              (os.of_components
                 (parent (parent ["home"; "user"; "stetho"; "scripts"; "dist"])
                  ++ ["gradle.properties"])) with
      | None => Raise (FileNotFoundError (filename_of (checkout None)))
      | Some text =>
          config ← configparser.read_file
                     (chain ["[properties]"] (readlines text))
                     (filename_of (checkout None));
          lookup_version config
      end.
Proof.
  apply (properties_file_location (checkout None)
           ["home"; "user"; "stetho"; "scripts"; "dist"] "setup.py").
  - repeat constructor.
  - reflexivity.
  - reflexivity.
Defined.

(** ** The run of the script *)

(** C2. The version reaches [setup] unchanged: for every string [v], the
    descriptor the script builds for the version [v] has [v] itself as
    its version; and in every run, when [read_version_name] returns a
    value, the script makes one call of [setup], with the descriptor of
    that very value, and when it raises, the script makes none. *)
Theorem version_passed_verbatim (v : string) (w : World) :
  version (setup_call v) = v
  ∧ match read_version_name w with
    | Ok resolved =>
        setup_calls (script w) = [setup_call resolved]
        ∧ stdout (script w) = ["Version is " +:+ resolved]
        ∧ raised (script w) = None
    | Raise x => setup_calls (script w) = [] ∧ raised (script w) = Some x
    end.
Proof.
  split; [done|]. unfold script. by destruct (read_version_name w).
Qed.

(** C4. When no file exists at the path computed from the location of the
    script, [read_version_name] raises [FileNotFoundError] for that path,
    and the script stops there: nothing is printed and [setup] is not
    called. *)
Theorem missing_file_is_fatal (w : World) :
  gradle_file w = None →
  read_version_name w = Raise (FileNotFoundError (filename_of w))
  ∧ script w = {| stdout := []; setup_calls := [];
                  raised := Some (FileNotFoundError (filename_of w)) |}.
Proof.
  intros Hnone. split; [by apply missing_file_lemma|].
  by apply script_raises, missing_file_lemma.
Qed.

Lemma missing_file_is_fatal_witness :
  read_version_name (checkout None)
  = Raise (FileNotFoundError (filename_of (checkout None)))
  ∧ script (checkout None)
    = {| stdout := []; setup_calls := [];
         raised := Some (FileNotFoundError (filename_of (checkout None))) |}.
Proof.
  apply (missing_file_is_fatal (checkout None)). reflexivity.
Defined.

(** * Further properties *)

(** ** The exceptions of [read_version_name] *)

Section Interpolation.
Import configparser.

Variables (recurse : string → string → result string).
Variables (opt section rawval : string) (map : string → option string).

Hypothesis recurse_errors :
  ∀ accum v x, recurse accum v = Raise x → is_interpolation_error x.

(** The loop of [_interpolate_some] raises nothing but the exceptions of
    the interpolation. *)
Lemma interpolate_loop_errors n :
  ∀ rest accum x,
    String.length rest ≤ n →
    interpolate_loop recurse opt section rawval map rest accum = Raise x →
    is_interpolation_error x.
Proof.
  induction n as [|n IH]; intros rest accum x Hlen.
  - destruct rest; [done|]. simpl in Hlen. lia.
  - destruct rest as [|c rest1]; [done|]. simpl in Hlen. simpl.
    destruct (Str.eqb c "%"%char); simpl.
    2:{ apply IH. lia. }
    destruct rest1 as [|c' rest2]; [by intros [= <-]|]. simpl in Hlen.
    destruct (Str.eqb c' "%"%char).
    { apply IH. lia. }
    destruct (Str.eqb c' "("%char); [|by intros [= <-]].
    match goal with |- ?f rest2 "" = _ → _ => set (scan := f) end.
    assert (∀ s var, String.length s ≤ n →
              scan s var = Raise x → is_interpolation_error x) as Hscan.
    { clear Hlen. induction s as [|d s IHs]; intros var Hs; subst scan.
      - by intros [= <-].
      - simpl in Hs. simpl.
        destruct (Str.eqb d ")"%char); simpl.
        2:{ apply IHs. lia. }
        destruct var as [|v0 var]; [by intros [= <-]|].
        destruct s as [|e rest3]; [by intros [= <-]|]. simpl in Hs.
        destruct (Str.eqb e "s"%char); simpl; [|by intros [= <-]].
        destruct (map _) as [v|]; [|by intros [= <-]].
        destruct (Str.contains "%"%char v).
        + destruct (recurse accum v) as [accum'|y] eqn:Hrec.
          * apply IH. lia.
          * intros [= <-]. by eapply recurse_errors.
        + apply IH. lia. }
    apply Hscan. lia.
Qed.

End Interpolation.

Lemma interpolate_some_errors fuel :
  ∀ opt accum rest section map x,
    configparser._interpolate_some fuel opt accum rest section map = Raise x →
    is_interpolation_error x.
Proof.
  induction fuel as [|fuel IH]; intros opt accum rest section map x; simpl.
  - by intros [= <-].
  - apply (interpolate_loop_errors _ _ _ _ _ (λ a v y, IH opt a v section map y)
             (String.length rest)). done.
Qed.

Section Taxonomy.
Import configparser.

Lemma handle_error_nonempty e lineno line errors :
  _handle_error e lineno line = Some errors → errors ≠ [].
Proof.
  unfold _handle_error. intros [= <-]. by destruct (default [] e).
Qed.

(** A pending [ParsingError] lists at least one line. *)
Lemma read_line_exc_nonempty fpname st lineno line st' :
  (∀ errors, exc st = Some errors → errors ≠ []) →
  read_line fpname st lineno line = Ok st' →
  ∀ errors, exc st' = Some errors → errors ≠ [].
Proof.
  intros Hst Hstep.
  destruct (read_lineP fpname st lineno line)
    as [?|name opt ???|name opt ???|header ???|???|name o v ?????|name ?????].
  - by simplify_eq.
  - by apply cursect_append_fields in Hstep as (_ & _ & -> & _).
  - by apply cursect_append_fields in Hstep as (_ & _ & -> & _).
  - by apply read_header_fields in Hstep as (-> & _).
  - done.
  - unfold read_option in Hstep. case_decide; [done|].
    injection Hstep as <-. simpl. destruct o; [|done].
    intros errors. apply handle_error_nonempty.
  - injection Hstep as <-. simpl. intros errors. apply handle_error_nonempty.
Qed.

Lemma lookup_version_errors (config : parser string) x :
  is_Some (_sections config !! "properties") →
  lookup_version config = Raise x →
  x = KeyError "VERSION_NAME" ∨ is_interpolation_error x.
Proof.
  intros [d Hsec]. unfold lookup_version, getitem, has_section.
  rewrite Hsec, (bool_decide_true (is_Some (Some d))) by by eexists.
  rewrite andb_false_r. simpl bind.
  unfold proxy_getitem, has_option.
  destruct (decide ("properties" = DEFAULTSECT)) as [?|_]; [done|].
  rewrite Hsec. fold version_key.
  destruct (d !! version_key) as [value|] eqn:Hd.
  - rewrite (bool_decide_true (is_Some (Some value))) by by eexists.
    simpl negb. cbv iota. unfold get, _unify_values. rewrite Hsec.
    unfold bind. cbv beta iota. fold version_key. rewrite Hd. intros Hget. right. by eapply interpolate_some_errors.
  - rewrite (bool_decide_false (is_Some None)) by by intros [? ?].
    destruct (_defaults config !! version_key) as [value|] eqn:Hdef.
    + rewrite (bool_decide_true (is_Some (Some value))) by by eexists.
      simpl negb. cbv iota. unfold get, _unify_values. rewrite Hsec.
      unfold bind. cbv beta iota. fold version_key. rewrite Hd, Hdef. intros Hget. right. by eapply interpolate_some_errors.
    + rewrite (bool_decide_false (is_Some None)) by by intros [? ?].
      simpl. intros [= <-]. by left.
Qed.

End Taxonomy.

(** X1. When the file exists and [open] delivers its text, whatever
    that text is, [read_version_name] returns a value or raises one of:
    the exceptions of a repeated section or option, a [ParsingError] that
    lists at least one line, [KeyError] for [VERSION_NAME], or an
    exception of the interpolation. Since the script puts the header
    [[properties]] before the file, [MissingSectionHeaderError] and a
    [KeyError] for the section never occur. The failures of [open]
    itself and of the decoding of the file are not in the statement. *)
Theorem read_version_name_errors (w : World) (text : string) :
  gradle_file w = Some text →
  match read_version_name w with
  | Ok _ => True
  | Raise x => reading_error w x
  end.
Proof.
  intros Hfile.
  rewrite (read_version_name_open w text Hfile), read_file_properties.
  set (f := filename_of w).
  pose proof (read_lines_well_formed f after_header 2 (readlines text)
                after_header_well_formed) as Hwf.
  destruct (configparser.read_lines f after_header 2 (readlines text))
    as [st|x] eqn:Hloop; simpl.
  2:{ by left. }
  unfold finish. destruct (configparser.exc st) as [errors|] eqn:Hexc; simpl.
  - right. left. exists errors. split; [done|].
    eapply (read_lines_invariant f
              (λ st, ∀ errors, configparser.exc st = Some errors → errors ≠ [])
              (λ _, True)); [| |by apply Forall_true|exact Hloop|exact Hexc].
    + intros ????? _ ?. by eapply read_line_exc_nonempty.
    + done.
  - destruct (lookup_version _) as [v|x] eqn:Hlookup; [done|].
    apply lookup_version_errors in Hlookup as [->|Hx].
    + right. right. by left.
    + by do 3 right.
    + simpl. rewrite lookup_fmap.
      assert (is_Some (configparser._sections (configparser.self st)
                       !! "properties")) as [d ->]; [|by eexists].
      eapply (read_lines_invariant f
                (λ st, is_Some (configparser._sections (configparser.self st)
                                !! "properties"))
                (λ _, True)); [|..|exact Hloop].
      * intros ????? _ ?. by eapply read_line_sections.
      * by eexists.
      * by apply Forall_true.
Qed.

Lemma read_version_name_errors_witness :
  match read_version_name (checkout (Some unparsable_file)) with
  | Ok _ => True
  | Raise x => reading_error (checkout (Some unparsable_file)) x
  end.
Proof.
  apply (read_version_name_errors _ unparsable_file). reflexivity.
Defined.

(** ** A header [[properties]] in the file *)

Section OwnHeader.
Import configparser.

Variable fpname : string.

Lemma read_line_added_sections st lineno line st' :
  read_line fpname st lineno line = Ok st' →
  added_sections st ⊆ added_sections st'.
Proof.
  intros Hstep.
  destruct (read_lineP fpname st lineno line)
    as [?|name opt ???|name opt ???|header ???|???|name o v ?????|name ?????].
  - by simplify_eq.
  - by apply cursect_append_fields in Hstep as (_ & _ & _ & _ & -> & _).
  - by apply cursect_append_fields in Hstep as (_ & _ & _ & _ & -> & _).
  - unfold read_header in Hstep.
    destruct (_sections (self st) !! header); repeat case_decide;
      simplify_eq; simpl; try done; apply union_subseteq_r.
  - done.
  - unfold read_option in Hstep. case_decide; [done|]. by injection Hstep as <-.
  - by simplify_eq.
Qed.

(** In strict mode a header is refused when its section has been opened
    before in the same source. *)
Lemma read_line_header_again st lineno line name :
  SECTCRE_match (line_value line) = Some name →
  not_continued st line →
  is_Some (_sections (self st) !! name) → name ∈ added_sections st →
  read_line fpname st lineno line
  = Raise (DuplicateSectionError name fpname lineno).
Proof.
  intros Hsect Hcont [d Hd] Hadded.
  assert (line_value line ≠ "") as Hne.
  { intros Hv. by rewrite Hv in Hsect. }
  destruct (read_lineP fpname st lineno line)
    as [?|? opt ???|? opt ???|header ???|???|? o v ?????|? ?????];
    try congruence.
  - destruct Hcont; [congruence|lia].
  - assert (header = name) as -> by congruence.
    unfold read_header. rewrite Hd. by rewrite decide_True.
Qed.

Lemma read_lines_properties_opened lines st lineno st' :
  is_Some (_sections (self st) !! "properties") →
  "properties" ∈ added_sections st →
  read_lines fpname st lineno lines = Ok st' →
  is_Some (_sections (self st') !! "properties")
  ∧ "properties" ∈ added_sections st'.
Proof.
  intros Hsec Hadded.
  apply (read_lines_invariant fpname
           (λ st, is_Some (_sections (self st) !! "properties")
                  ∧ "properties" ∈ added_sections st)
           (λ _, True)); [|done|by apply Forall_true].
  intros ???? [??] _ Hstep. split.
  - by eapply read_line_sections.
  - by eapply read_line_added_sections.
Qed.

End OwnHeader.

(** X2. The file must not hold the header [[properties]] itself: when a
    line of the file has the shape of that header and is not read as the
    continuation of a value, [read_version_name] fails; the parse stops at
    that line with [DuplicateSectionError] for [properties], unless a
    repeated section or option has stopped it before. *)
Theorem own_header_is_rejected (w : World) (text : string)
    (pre post : list string) (line : string) :
  gradle_file w = Some text →
  readlines text = pre ++ line :: post →
  configparser.SECTCRE_match (line_value line) = Some "properties" →
  (∀ st, reaches (filename_of w) pre st → not_continued st line) →
  ∃ x, read_version_name w = Raise x
       ∧ is_duplicate_error x
       ∧ (∀ st, reaches (filename_of w) pre st →
            x = DuplicateSectionError "properties" (filename_of w)
                  (2 + length pre)).
Proof.
  intros Hfile Hlines Hsect Hcont.
  rewrite (read_version_name_open w text Hfile), read_file_properties, Hlines.
  set (f := filename_of w) in *. rewrite read_lines_app.
  pose proof (read_lines_well_formed f after_header 2 pre
                after_header_well_formed) as Hwf.
  unfold reaches in *.
  destruct (configparser.read_lines f after_header 2 pre) as [st|x] eqn:Hpre;
    simpl.
  - destruct (read_lines_properties_opened f pre after_header 2 st)
      as [Hsec Hadded]; [by eexists| |done|].
    { apply elem_of_union. left. by apply elem_of_singleton. }
    rewrite (read_line_header_again f st _ line "properties" Hsect
               (Hcont st eq_refl) Hsec Hadded). simpl.
    eexists. split; [done|]. split; [done|]. done.
  - exists x. split; [done|]. split; [done|]. by intros st.
Qed.

Lemma own_header_is_rejected_witness :
  ∃ x, read_version_name (checkout (Some own_header_file)) = Raise x
       ∧ is_duplicate_error x
       ∧ (∀ st, reaches (filename_of (checkout (Some own_header_file)))
                  ["# settings" +:+ EOL] st →
            x = DuplicateSectionError "properties"
                  (filename_of (checkout (Some own_header_file)))
                  (2 + length ["# settings" +:+ EOL])).
Proof.
  apply (own_header_is_rejected _ own_header_file
           ["# settings" +:+ EOL] ["VERSION_NAME = 1.2.3" +:+ EOL]
           ("[properties]" +:+ EOL)).
  - reflexivity.
  - reflexivity.
  - reflexivity.
  - intros st Hst. right. vm_compute. lia.
Defined.

(** ** Interpolation of the value *)

Section InterpolationLoop.
Import configparser.

Variables (recurse : string → string → result string).
Variables (opt section rawval : string) (map : string → option string).

Lemma eqb_sym a b : Str.eqb a b = Str.eqb b a.
Proof. unfold Str.eqb. apply Ascii.eqb_sym. Qed.

Lemma contains_cons c d s :
  Str.contains c (String d s) = false →
  Str.eqb d c = false ∧ Str.contains c s = false.
Proof.
  change (Str.eqb c d || Str.contains c s = false
          → Str.eqb d c = false ∧ Str.contains c s = false).
  intros [H1 H2]%orb_false_elim. by rewrite eqb_sym.
Qed.

(** Text without percent sign is copied. *)
Lemma interpolate_loop_prefix prefix rest accum :
  Str.contains "%"%char prefix = false →
  interpolate_loop recurse opt section rawval map (prefix +:+ rest) accum
  = interpolate_loop recurse opt section rawval map rest (accum +:+ prefix).
Proof.
  revert accum. induction prefix as [|c prefix IH]; intros accum Hplain.
  - by rewrite append_nil_r.
  - apply contains_cons in Hplain as [Hc Hplain].
    rewrite append_cons. simpl. rewrite Hc. simpl.
    rewrite IH by done. by rewrite append_assoc.
Qed.

(** A doubled percent sign gives one percent sign. *)
Lemma interpolate_loop_escape s accum :
  interpolate_loop recurse opt section rawval map (escape_percent s) accum
  = Ok (accum +:+ s).
Proof.
  revert accum. induction s as [|c s IH]; intros accum.
  - simpl. by rewrite append_nil_r.
  - simpl escape_percent. destruct (Str.eqb c "%"%char) eqn:Hc.
    + apply Ascii.eqb_eq in Hc as ->. simpl. rewrite IH.
      by rewrite append_assoc.
    + simpl. rewrite Hc. simpl. rewrite IH. by rewrite append_assoc.
Qed.

(** A percent sign that starts no interpolation is an error. *)
Lemma interpolate_loop_lone_percent rest accum :
  no_interpolation_start rest = true →
  interpolate_loop recurse opt section rawval map (String "%"%char rest) accum
  = Raise (InterpolationSyntaxError opt section).
Proof.
  destruct rest as [|c rest]; [done|]. simpl.
  intros [H1 H2]%andb_prop.
  apply negb_true_iff in H1. apply negb_true_iff in H2. by rewrite H1, H2.
Qed.

(** A reference [%(name)s]. *)
Lemma interpolate_loop_reference name rest accum :
  name ≠ "" → Str.contains ")"%char name = false →
  interpolate_loop recurse opt section rawval map
    ("%(" +:+ name +:+ ")s" +:+ rest) accum
  = match map (optionxform name) with
    | None =>
        Raise (InterpolationMissingOptionError opt section rawval
                 (optionxform name))
    | Some v =>
        if Str.contains "%"%char v
        then match recurse accum v with
             | Ok accum' =>
                 interpolate_loop recurse opt section rawval map rest accum'
             | Raise x => Raise x
             end
        else interpolate_loop recurse opt section rawval map rest (accum +:+ v)
    end.
Proof.
  intros Hname Hparen.
  change ("%(" +:+ name +:+ ")s" +:+ rest)
    with (String "%"%char (String "("%char (name +:+ ")s" +:+ rest))).
  simpl.
  match goal with |- ?f _ "" = _ => set (scan := f) end.
  assert (∀ n var, var +:+ n ≠ "" → Str.contains ")"%char n = false →
            scan (n +:+ ")s" +:+ rest) var
            = match map (optionxform (var +:+ n)) with
              | None =>
                  Raise (InterpolationMissingOptionError opt section rawval
                           (optionxform (var +:+ n)))
              | Some v =>
                  if Str.contains "%"%char v
                  then match recurse accum v with
                       | Ok accum' =>
                           interpolate_loop recurse opt section rawval map
                             rest accum'
                       | Raise x => Raise x
                       end
                  else interpolate_loop recurse opt section rawval map rest
                         (accum +:+ v)
              end) as Hscan.
  { induction n as [|d n IHn]; intros var Hvar Hn; subst scan.
    - rewrite append_nil_r in *. destruct var as [|v0 var]; [done|]. done.
    - apply contains_cons in Hn as [Hd Hn].
      rewrite append_cons. simpl. rewrite Hd. simpl.
      rewrite IHn; [| |done].
      + by rewrite append_assoc.
      + rewrite append_assoc. exact Hvar. }
  by apply (Hscan name "").
Qed.

End InterpolationLoop.

(** The script on a flat file without repeated key, with the map the
    interpolation uses: it holds the assignments of the file and nothing
    else. *)
Lemma read_version_name_flat_map (w : World) (text : string) :
  gradle_file w = Some text →
  Forall (λ line, flat_line line = true) (readlines text) →
  NoDup (keys (readlines text)) →
  ∃ m, (∀ line k v, line ∈ readlines text → assignment line = Some (k, v) →
          m k = Some v)
       ∧ (∀ k, k ∉ keys (readlines text) → m k = None)
       ∧ read_version_name w
         = match m version_key with
           | Some value =>
               configparser.before_get "properties" version_key value m
           | None => Raise (KeyError "VERSION_NAME")
           end.
Proof.
  intros Hfile Hflat Hnodup.
  rewrite (read_version_name_open w text Hfile), read_file_properties.
  destruct (flat_run (filename_of w) (readlines text) after_header ∅ 2
              after_header_flat_state Hflat Hnodup)
    as (st & d & -> & (Hprops & Hexc & _) & Hall & Hother); [done|].
  simpl. unfold finish. rewrite Hexc. simpl.
  rewrite (join_in_properties st d Hprops).
  destruct (lookup_version_properties (configparser.join_value <$> d))
    as (m & _ & Hm & ->).
  exists m. split; [|split].
  - intros line k v Hin Hassign. rewrite Hm, lookup_fmap. by eapply Hall.
  - intros k Hk. rewrite Hm, lookup_fmap, (Hother k Hk). done.
  - by rewrite Hm.
Qed.

Lemma before_get_unfold section opt value map :
  configparser.before_get section opt value map
  = configparser.interpolate_loop
      (λ accum v, configparser._interpolate_some 9 opt accum v section map)
      opt section (default value (map (configparser.optionxform opt)))
      map value "".
Proof. reflexivity. Qed.

(** X3. In a flat file without repeated key, a value written with every
    percent sign doubled is returned with single percent signs: when the
    line of the key assigns [escape_percent s], [read_version_name]
    returns [s]. *)
Theorem doubled_percent_is_unescaped (w : World) (text line s : string) :
  gradle_file w = Some text →
  Forall (λ line, flat_line line = true) (readlines text) →
  NoDup (keys (readlines text)) →
  line ∈ readlines text →
  assignment line = Some (version_key, escape_percent s) →
  read_version_name w = Ok s.
Proof.
  intros Hfile Hflat Hnodup Hin Hassign.
  destruct (read_version_name_flat w text line _ Hfile Hflat Hnodup Hin Hassign)
    as [m ->].
  rewrite before_get_unfold. apply interpolate_loop_escape.
Qed.

Lemma doubled_percent_is_unescaped_witness :
  read_version_name (checkout (Some escaped_file)) = Ok "100% pure".
Proof.
  apply (doubled_percent_is_unescaped _ escaped_file
           ("VERSION_NAME = 100%% pure" +:+ EOL)).
  - reflexivity.
  - repeat constructor.
  - apply (bool_decide_unpack _). by vm_compute.
  - apply list_elem_of_further, list_elem_of_here.
  - reflexivity.
Defined.

(** X4. In a flat file without repeated key, a value with a percent sign
    that is followed neither by a percent sign nor by an opening
    parenthesis (the first percent sign of the value) makes
    [read_version_name] raise [InterpolationSyntaxError]. *)
Theorem lone_percent_is_fatal (w : World) (text line before after : string) :
  gradle_file w = Some text →
  Forall (λ line, flat_line line = true) (readlines text) →
  NoDup (keys (readlines text)) →
  line ∈ readlines text →
  assignment line = Some (version_key, before +:+ String "%"%char after) →
  Str.contains "%"%char before = false →
  no_interpolation_start after = true →
  read_version_name w
  = Raise (InterpolationSyntaxError version_key "properties").
Proof.
  intros Hfile Hflat Hnodup Hin Hassign Hbefore Hafter.
  destruct (read_version_name_flat w text line _ Hfile Hflat Hnodup Hin Hassign)
    as [m ->].
  rewrite before_get_unfold, interpolate_loop_prefix by done.
  by apply interpolate_loop_lone_percent.
Qed.

Lemma lone_percent_is_fatal_witness :
  read_version_name (checkout (Some lone_percent_file))
  = Raise (InterpolationSyntaxError version_key "properties").
Proof.
  apply (lone_percent_is_fatal _ lone_percent_file
           ("VERSION_NAME = 1.2.3-50%done" +:+ EOL) "1.2.3-50" "done").
  - reflexivity.
  - repeat constructor.
  - apply (bool_decide_unpack _). by vm_compute.
  - apply list_elem_of_here.
  - reflexivity.
  - reflexivity.
  - reflexivity.
Defined.

(** X5. In a flat file without repeated key, a reference [%(name)s] in the
    value of the key is replaced by the value the file assigns to [name]
    (in any letter case), wherever that assignment stands: with text
    without percent sign before and after the reference and in the
    referenced value, [read_version_name] returns the three texts put
    together. *)
Theorem reference_is_resolved (w : World) (text line line' : string)
    (before name after value : string) :
  gradle_file w = Some text →
  Forall (λ line, flat_line line = true) (readlines text) →
  NoDup (keys (readlines text)) →
  line ∈ readlines text →
  assignment line
  = Some (version_key, before +:+ "%(" +:+ name +:+ ")s" +:+ after) →
  line' ∈ readlines text →
  assignment line' = Some (configparser.optionxform name, value) →
  name ≠ "" → Str.contains ")"%char name = false →
  Str.contains "%"%char before = false →
  Str.contains "%"%char after = false →
  Str.contains "%"%char value = false →
  read_version_name w = Ok (before +:+ value +:+ after).
Proof.
  intros Hfile Hflat Hnodup Hin Hassign Hin' Hassign' Hname Hparen Hb Ha Hv.
  destruct (read_version_name_flat_map w text Hfile Hflat Hnodup)
    as (m & Hall & _ & ->).
  rewrite (Hall _ _ _ Hin Hassign).
  rewrite before_get_unfold, interpolate_loop_prefix by done.
  rewrite interpolate_loop_reference by done.
  rewrite (Hall _ _ _ Hin' Hassign'), Hv.
  rewrite interpolate_loop_plain by done. by rewrite append_assoc.
Qed.

Lemma reference_is_resolved_witness :
  read_version_name (checkout (Some reference_file))
  = Ok ("v" +:+ "1.2.3" +:+ "-SNAPSHOT").
Proof.
  apply (reference_is_resolved _ reference_file
           ("VERSION_NAME = v%(Base)s-SNAPSHOT" +:+ EOL) ("BASE = 1.2.3" +:+ EOL)
           "v" "Base" "-SNAPSHOT" "1.2.3").
  - reflexivity.
  - repeat constructor.
  - apply (bool_decide_unpack _). by vm_compute.
  - apply list_elem_of_here.
  - reflexivity.
  - apply list_elem_of_further, list_elem_of_here.
  - reflexivity.
  - discriminate.
  - reflexivity.
  - reflexivity.
  - reflexivity.
  - reflexivity.
Defined.

(** X6. In a flat file without repeated key, a reference [%(name)s] to an
    option that the file does not assign makes [read_version_name] raise
    [InterpolationMissingOptionError], with the raw value of the key and
    the missing name in lower case. *)
Theorem dangling_reference_is_fatal (w : World) (text line : string)
    (before name after : string) :
  gradle_file w = Some text →
  Forall (λ line, flat_line line = true) (readlines text) →
  NoDup (keys (readlines text)) →
  line ∈ readlines text →
  assignment line
  = Some (version_key, before +:+ "%(" +:+ name +:+ ")s" +:+ after) →
  configparser.optionxform name ∉ keys (readlines text) →
  name ≠ "" → Str.contains ")"%char name = false →
  Str.contains "%"%char before = false →
  read_version_name w
  = Raise (InterpolationMissingOptionError version_key "properties"
             (before +:+ "%(" +:+ name +:+ ")s" +:+ after)
             (configparser.optionxform name)).
Proof.
  intros Hfile Hflat Hnodup Hin Hassign Hmissing Hname Hparen Hb.
  destruct (read_version_name_flat_map w text Hfile Hflat Hnodup)
    as (m & Hall & Hother & ->).
  rewrite (Hall _ _ _ Hin Hassign).
  rewrite before_get_unfold, interpolate_loop_prefix by done.
  rewrite interpolate_loop_reference by done.
  rewrite (Hother _ Hmissing).
  change (configparser.optionxform version_key) with version_key.
  by rewrite (Hall _ _ _ Hin Hassign).
Qed.

Lemma dangling_reference_is_fatal_witness :
  read_version_name (checkout (Some dangling_reference_file))
  = Raise (InterpolationMissingOptionError version_key "properties"
             ("v" +:+ "%(" +:+ "Base" +:+ ")s" +:+ "-SNAPSHOT")
             (configparser.optionxform "Base")).
Proof.
  apply (dangling_reference_is_fatal _ dangling_reference_file
           ("VERSION_NAME = v%(Base)s-SNAPSHOT" +:+ EOL)
           "v" "Base" "-SNAPSHOT").
  - reflexivity.
  - repeat constructor.
  - apply (bool_decide_unpack _). by vm_compute.
  - apply list_elem_of_here.
  - reflexivity.
  - apply (bool_decide_unpack _). by vm_compute.
  - discriminate.
  - reflexivity.
  - reflexivity.
Defined.

(** ** Files with the same assignments *)

Lemma keys_assigned lines k :
  k ∈ keys lines ↔ ∃ v, assigned lines k v.
Proof.
  unfold keys, assigned. rewrite list_elem_of_omap. split.
  - intros (line & Hin & Hkey). unfold key_of in Hkey.
    destruct (assignment line) as [[k' v]|] eqn:Hassign; [|done].
    injection Hkey as ->. eauto.
  - intros (v & line & Hin & Hassign). exists line. split; [done|].
    unfold key_of. by rewrite Hassign.
Qed.

(** The parser after a flat file without repeated key: the section
    [properties], with the assignments of the file. *)
Lemma read_file_flat (fpname : string) (lines : list string) :
  Forall (λ line, flat_line line = true) lines →
  NoDup (keys lines) →
  ∃ d : gmap string string,
    configparser.read_file (chain ["[properties]"] lines) fpname
    = Ok (configparser.Parser {["properties" := d]} ∅)
    ∧ (∀ k v, assigned lines k v → d !! k = Some v)
    ∧ (∀ k, k ∉ keys lines → d !! k = None).
Proof.
  intros Hflat Hnodup. rewrite read_file_properties.
  destruct (flat_run fpname lines after_header ∅ 2
              after_header_flat_state Hflat Hnodup)
    as (st & d & -> & (Hprops & Hexc & _) & Hall & Hother); [done|].
  simpl. unfold finish. rewrite Hexc.
  rewrite (join_in_properties st d Hprops).
  exists (configparser.join_value <$> d). split; [done|]. split.
  - intros k v (line & Hin & Hassign). rewrite lookup_fmap. by eapply Hall.
  - intros k Hk. by rewrite lookup_fmap, (Hother k Hk).
Qed.

(** ** The section of a flat file *)

Section FlatOutcome.
Import configparser.

Variable fpname : string.

Lemma flat_line_option line k :
  flat_line line = true → key_of line = Some k →
  option_line line k ∧ indent line = 0.
Proof.
  intros Hflat Hkey.
  apply flat_line_inv in Hflat as [Hblank|(_ & Hindent & Hsect & _)].
  { unfold key_of in Hkey. by rewrite (assignment_blank _ Hblank) in Hkey. }
  split; [|done]. split; [|done].
  unfold is_header. rewrite Hsect. apply bool_decide_eq_false. by intros [? ?].
Qed.

(** When the loop of [_read] comes to the end of a flat file, the file
    assigns no option twice, and none that was assigned before. *)
Lemma flat_run_nodup lines :
  ∀ st d lineno st',
    flat_state st d →
    (∀ k, is_Some (d !! k) → ("properties", k) ∈ added_options st) →
    Forall (λ line, flat_line line = true) lines →
    read_lines fpname st lineno lines = Ok st' →
    NoDup (keys lines) ∧ ∀ k, k ∈ keys lines → d !! k = None.
Proof.
  induction lines as [|line lines IH];
    intros st d lineno st' Hflat Hadded Hlines Hrun.
  - split; [constructor|]. intros k Hk. by apply elem_of_nil in Hk.
  - apply Forall_cons in Hlines as [Hline Hlines].
    simpl in Hrun.
    destruct (read_line fpname st lineno line) as [st1|x] eqn:Hstep; [|done].
    simpl in Hrun.
    assert (sectname st = Some "properties") as Hsect
      by (destruct Hflat as ([? _] & _); done).
    assert (∀ k, key_of line = Some k → d !! k = None) as Hfresh.
    { intros k Hk.
      destruct (d !! k) as [l|] eqn:Hd; [|done].
      destruct (flat_line_option line k Hline Hk) as [Hoption Hindent].
      rewrite (read_line_option_again fpname st lineno line k Hsect
                 (unindented_not_continued st line Hindent) Hoption) in Hstep;
        [done|].
      apply Hadded. rewrite Hd. by eexists. }
    destruct (flat_step fpname st d lineno line Hflat Hline Hfresh)
      as (st1' & d1 & Hstep' & Hflat1 & Hd1).
    assert (st1' = st1) as -> by congruence.
    pose proof (read_line_added_options fpname _ _ _ _ Hstep) as Hsub.
    rewrite keys_cons.
    destruct (assignment line) as [[k v]|] eqn:Hassign.
    + assert (key_of line = Some k) as Hkey
        by (unfold key_of; by rewrite Hassign).
      rewrite Hkey. subst d1.
      destruct (flat_line_option line k Hline Hkey) as [Hoption Hindent].
      pose proof (read_line_option fpname st lineno line k Hsect
                    (unindented_not_continued st line Hindent) Hoption) as Hin.
      rewrite Hstep in Hin.
      destruct (IH st1 (<[k := [v]]> d) (S lineno) st' Hflat1) as [Hnodup Hnone];
        [|done|done|].
      { intros k'. rewrite lookup_insert. case_decide as Hk; [by subst k'|].
        intros Hsome. apply Hsub. by apply Hadded. }
      split.
      * apply NoDup_cons. split; [|done].
        intros Hk. specialize (Hnone k Hk). by rewrite lookup_insert_eq in Hnone.
      * intros k' [->|Hk']%elem_of_cons; [by apply Hfresh|].
        specialize (Hnone k' Hk'). rewrite lookup_insert in Hnone.
        by case_decide.
    + assert (key_of line = None) as Hkey
        by (unfold key_of; by rewrite Hassign).
      rewrite Hkey.
      destruct (IH st1 d1 (S lineno) st' Hflat1) as [Hnodup Hnone];
        [|done|done|].
      { intros k Hsome. apply Hsub, Hadded. specialize (Hd1 k).
        destruct Hsome as [l Hl]. rewrite Hl in Hd1.
        by destruct (d !! k). }
      split; [done|]. intros k Hk. specialize (Hnone k Hk).
      specialize (Hd1 k). rewrite Hnone in Hd1. by destruct (d !! k).
Qed.

(** The loop of [_read] over a flat file stops on nothing but a repeated
    option, and only when the file assigns an option twice. *)
Lemma read_lines_flat lines :
  Forall (λ line, flat_line line = true) lines →
  match read_lines fpname after_header 2 lines with
  | Ok _ => NoDup (keys lines)
  | Raise x => is_duplicate_error x ∧ ¬ NoDup (keys lines)
  end.
Proof.
  intros Hflat.
  pose proof (read_lines_added_options fpname lines after_header 2
                after_header_well_formed) as Hraise.
  destruct (read_lines fpname after_header 2 lines) as [st|x] eqn:Hrun.
  - eapply (flat_run_nodup lines after_header ∅ 2 st);
      [apply after_header_flat_state| |done|done].
    intros k [l Hl]. by rewrite lookup_empty in Hl.
  - split; [done|]. intros Hnodup.
    destruct (flat_run fpname lines after_header ∅ 2
                after_header_flat_state Hflat Hnodup)
      as (st & d & Hok & _); [done|].
    congruence.
Qed.

End FlatOutcome.

(** The lines of a text file, put together again, are the text. *)
Lemma readlines_concat (text : string) :
  foldr String.append "" (readlines text) = text.
Proof.
  induction text as [|c rest IH]; [done|]. simpl.
  destruct (Str.eqb c LF).
  - simpl. by rewrite IH.
  - destruct (readlines rest) as [|l ls]; simpl in *; by rewrite <- IH.
Qed.

(** C6. The parser is handed the line [[properties]] and then the lines
    of the file, which together are the whole text of the file; it reads
    them from line 2 on inside the section that the first line opens.
    For a flat file (blank lines, comments, and unindented option lines
    with a name) the outcome is one of two. The parse succeeds: then no
    option is assigned twice, the parser holds the section [properties]
    and nothing else (no other section, no default), that section holds
    exactly the assignments of the file (names in lower case, values
    stripped), and [read_version_name] is the lookup of [VERSION_NAME]
    in it: [KeyError] when the file does not assign it, its interpolated
    value otherwise, every reference of which is resolved in the same
    section. Or the parse fails: then the file assigns an option twice,
    the exception is that of a repeated option, and [read_version_name]
    fails with it. *)
Theorem flat_file_is_read_in_properties (w : World) (text : string) :
  gradle_file w = Some text →
  Forall (λ line, flat_line line = true) (readlines text) →
  foldr String.append "" (readlines text) = text
  ∧ configparser.read_file (chain ["[properties]"] (readlines text)) (filename_of w)
    = (st ← configparser.read_lines (filename_of w) after_header 2 (readlines text);
       finish (filename_of w) st)
  ∧ configparser.sectname after_header = Some "properties"
  ∧ match configparser.read_file (chain ["[properties]"] (readlines text))
            (filename_of w) with
    | Raise x =>
        is_duplicate_error x ∧ ¬ NoDup (keys (readlines text))
        ∧ read_version_name w = Raise x
    | Ok config =>
        NoDup (keys (readlines text))
        ∧ ∃ d m,
            config = configparser.Parser {["properties" := d]} ∅
            ∧ (∀ k v, d !! k = Some v ↔ assigned (readlines text) k v)
            ∧ configparser._unify_values config "properties" = Ok m
            ∧ (∀ k, m k = d !! k)
            ∧ read_version_name w
              = match d !! version_key with
                | Some value =>
                    configparser.before_get "properties" version_key value m
                | None => Raise (KeyError "VERSION_NAME")
                end
    end.
Proof.
  intros Hfile Hflat. split; [apply readlines_concat|].
  split; [apply read_file_properties|]. split; [done|].
  rewrite (read_version_name_open w text Hfile).
  pose proof (read_lines_flat (filename_of w) (readlines text) Hflat) as Hrun.
  destruct (decide (NoDup (keys (readlines text)))) as [Hnodup|Hdup].
  - destruct (read_file_flat (filename_of w) (readlines text) Hflat Hnodup)
      as (d & -> & Hall & Hother).
    split; [done|].
    destruct (lookup_version_properties d) as (m & Hm & Hmk & Hlookup).
    exists d, m. split; [done|]. split.
    { intros k v. split; [|apply Hall].
      intros Hd. destruct (decide (k ∈ keys (readlines text))) as [Hk|Hk].
      - apply keys_assigned in Hk as [v' Hv'].
        rewrite (Hall k v' Hv') in Hd. by injection Hd as <-.
      - by rewrite (Hother k Hk) in Hd. }
    split; [done|]. split; [done|]. exact Hlookup.
  - rewrite read_file_properties.
    destruct (configparser.read_lines _ _ _ _) as [st|x]; [done|].
    simpl. by destruct Hrun.
Qed.

Lemma flat_file_is_read_in_properties_witness :
  ∃ d : gmap string string,
    configparser.read_file (chain ["[properties]"] (readlines flat_file))
      (filename_of (checkout (Some flat_file)))
    = Ok (configparser.Parser {["properties" := d]} ∅)
    ∧ d !! "group" = Some "com.facebook.stetho"
    ∧ d !! version_key = Some "1.2.3"
    ∧ d !! "pom_url" = Some "https://github.com/facebook/stetho"
    ∧ d !! "VERSION_NAME" = None
    ∧ read_version_name (checkout (Some flat_file)) = Ok "1.2.3".
Proof.
  destruct (flat_file_is_read_in_properties (checkout (Some flat_file)) flat_file)
    as (_ & _ & _ & Hread); [reflexivity|repeat constructor|].
  destruct (configparser.read_file _ _) as [config|x].
  - destruct Hread as (_ & d & m & -> & Hd & _ & _ & Hlookup).
    assert (d !! version_key = Some "1.2.3") as Hversion.
    { apply Hd. exists ("Version_Name   =  1.2.3  " +:+ EOL).
      split; [|reflexivity].
      do 3 apply list_elem_of_further. apply list_elem_of_here. }
    exists d. split; [done|]. split.
    { apply Hd. exists ("GROUP=com.facebook.stetho" +:+ EOL).
      split; [|reflexivity]. apply list_elem_of_further, list_elem_of_here. }
    split; [done|]. split.
    { apply Hd. exists ("POM_URL: https://github.com/facebook/stetho" +:+ EOL).
      split; [|reflexivity].
      do 4 apply list_elem_of_further. apply list_elem_of_here. }
    split.
    { destruct (d !! "VERSION_NAME") as [v|] eqn:Hv; [|done].
      apply Hd in Hv as (line & Hin & Hassign).
      repeat (apply elem_of_cons in Hin as [->|Hin]; [by vm_compute in Hassign|]).
      by apply elem_of_nil in Hin. }
    rewrite Hlookup, Hversion. by apply before_get_plain.
  - destruct Hread as (_ & Hdup & _). destruct Hdup.
    apply (bool_decide_unpack _). by vm_compute.
Defined.

(** X7. Two flat files without repeated key that make the same
    assignments give the same result, whatever the order of their lines,
    their comments, their blank lines, the spelling of the names in upper
    or lower case and the white space around the delimiters. *)
Theorem flat_files_agree (w1 w2 : World) (text1 text2 : string) :
  gradle_file w1 = Some text1 → gradle_file w2 = Some text2 →
  Forall (λ line, flat_line line = true) (readlines text1) →
  Forall (λ line, flat_line line = true) (readlines text2) →
  NoDup (keys (readlines text1)) → NoDup (keys (readlines text2)) →
  (∀ k v, assigned (readlines text1) k v ↔ assigned (readlines text2) k v) →
  read_version_name w1 = read_version_name w2.
Proof.
  intros Hfile1 Hfile2 Hflat1 Hflat2 Hnodup1 Hnodup2 Hsame.
  rewrite (read_version_name_open w1 text1 Hfile1).
  rewrite (read_version_name_open w2 text2 Hfile2).
  destruct (read_file_flat (filename_of w1) _ Hflat1 Hnodup1)
    as (d1 & -> & Hall1 & Hother1).
  destruct (read_file_flat (filename_of w2) _ Hflat2 Hnodup2)
    as (d2 & -> & Hall2 & Hother2).
  assert (d1 = d2) as ->; [|done].
  apply map_eq. intros k.
  destruct (decide (k ∈ keys (readlines text1))) as [Hk|Hk].
  - apply keys_assigned in Hk as [v Hv].
    rewrite (Hall1 k v Hv). symmetry. apply Hall2. by apply Hsame.
  - rewrite (Hother1 k Hk). symmetry. apply Hother2.
    intros [v Hv]%keys_assigned. apply Hk, keys_assigned.
    exists v. by apply Hsame.
Qed.

Lemma flat_files_agree_witness :
  read_version_name (checkout (Some flat_file))
  = read_version_name (checkout (Some reordered_file)).
Proof.
  apply (flat_files_agree _ _ flat_file reordered_file).
  - reflexivity.
  - reflexivity.
  - repeat constructor.
  - repeat constructor.
  - apply (bool_decide_unpack _). by vm_compute.
  - apply (bool_decide_unpack _). by vm_compute.
  - intros k v. unfold assigned. split; intros (line & Hin & Hassign);
      vm_compute in Hin;
      repeat (apply elem_of_cons in Hin as [->|Hin];
              [vm_compute in Hassign; try discriminate;
               injection Hassign as <- <-|]);
      try (by apply elem_of_nil in Hin).
    + exists ("GROUP = com.facebook.stetho" +:+ EOL). split; [|reflexivity].
      do 3 apply list_elem_of_further. apply list_elem_of_here.
    + exists ("version_name=1.2.3" +:+ EOL). split; [|reflexivity].
      apply list_elem_of_further, list_elem_of_here.
    + exists ("POM_URL: https://github.com/facebook/stetho" +:+ EOL).
      split; [|reflexivity]. apply list_elem_of_here.
    + exists ("POM_URL: https://github.com/facebook/stetho" +:+ EOL).
      split; [|reflexivity]. do 4 apply list_elem_of_further.
      apply list_elem_of_here.
    + exists ("Version_Name   =  1.2.3  " +:+ EOL). split; [|reflexivity].
      do 3 apply list_elem_of_further. apply list_elem_of_here.
    + exists ("GROUP=com.facebook.stetho" +:+ EOL). split; [|reflexivity].
      apply list_elem_of_further, list_elem_of_here.
Defined.

(** ** The shape of the line of the key *)

Section KeyLine.
Import configparser.

Lemma lower_char_version c :
  Str.contains (Str.lower_char c) version_key = true →
  Str.isspace c = false ∧ is_delimiter c = false
  ∧ is_comment_prefix c = false ∧ Str.eqb c "["%char = false.
Proof. destruct c as [[] [] [] [] [] [] [] []]; by vm_compute. Qed.

Lemma rstrip_cons_nonspace d s :
  Str.isspace d = false → Str.rstrip (String d s) = String d (Str.rstrip s).
Proof. intros Hd. rewrite rstrip_cons, Hd. by destruct (Str.rstrip s). Qed.

Lemma delimiter_is_no_space d : is_delimiter d = true → Str.isspace d = false.
Proof.
  intros Hd. destruct (Str.isspace d) eqn:Hs; [|done].
  by rewrite (space_is_no_delimiter d Hs) in Hd.
Qed.

Lemma strip_padded ws2 value ws3 :
  all_space ws2 = true → all_space ws3 = true → Str.strip value = value →
  Str.strip (ws2 +:+ value +:+ ws3) = value.
Proof.
  intros H2 H3 Hvalue. unfold Str.strip.
  rewrite <- append_assoc, rstrip_append_space by done.
  destruct (Str.rstrip value) as [|c r] eqn:Hr.
  - assert (value = "") as -> by (by rewrite <- Hvalue; unfold Str.strip; rewrite Hr).
    by rewrite append_nil_r, rstrip_all_space.
  - rewrite rstrip_append_nonempty by (by rewrite Hr).
    by rewrite lstrip_append_space.
Qed.

(** What [_read] makes of an option line written without indentation: the
    name runs up to the white space before the first delimiter, the value
    is the rest of the line, stripped. *)
Lemma option_line_shape c key ws1 d ws2 value ws3 :
  Str.isspace c = false → is_comment_prefix c = false →
  Str.eqb c "["%char = false →
  Str.rstrip (String c key) = String c key →
  has_delimiter (String c key) = false →
  is_delimiter d = true →
  all_space ws1 = true → all_space ws2 = true → all_space ws3 = true →
  Str.strip value = value →
  flat_line (String c key +:+ ws1 +:+ String d (ws2 +:+ value +:+ ws3)) = true
  ∧ assignment (String c key +:+ ws1 +:+ String d (ws2 +:+ value +:+ ws3))
    = Some (optionxform (String c key), value).
Proof.
  intros Hspace Hcomment Hbracket Hkey Hdelim Hd H1 H2 H3 Hvalue.
  set (line := String c key +:+ ws1 +:+ String d (ws2 +:+ value +:+ ws3)).
  set (rest := Str.rstrip (ws2 +:+ value +:+ ws3)).
  assert (Str.strip line = String c (key +:+ ws1 +:+ String d rest)) as Hstrip.
  { unfold Str.strip, line. rewrite <- append_assoc.
    rewrite rstrip_append_nonempty;
      rewrite rstrip_cons_nonspace by (by apply delimiter_is_no_space);
      [|done].
    rewrite append_assoc, append_cons. simpl. by rewrite Hspace. }
  assert (line_value line = String c (key +:+ ws1 +:+ String d rest)) as Hline.
  { unfold line_value, is_comment. by rewrite Hstrip, Hcomment. }
  assert (OPTCRE_match (String c (key +:+ ws1 +:+ String d rest))
          = Some (String c key, Str.lstrip rest)) as Hopt.
  { unfold OPTCRE_match.
    change (String c (key +:+ ws1 +:+ String d rest))
      with (String c key +:+ ws1 +:+ String d rest).
    rewrite <- append_assoc.
    rewrite partition_delimiter_app; [| |done].
    - by rewrite rstrip_append_space, Hkey.
    - by rewrite has_delimiter_app, Hdelim, (all_space_no_delimiter ws1). }
  assert (Str.strip (Str.lstrip rest) = value) as Hrest.
  { change (Str.lstrip rest) with (Str.strip (ws2 +:+ value +:+ ws3)).
    by rewrite strip_padded. }
  split.
  - unfold flat_line, is_header, indent. rewrite Hline. cbv beta iota.
    rewrite Hopt. simpl. by rewrite Hspace, Hbracket.
  - unfold assignment. rewrite Hline, Hopt. by rewrite Hkey, Hrest.
Qed.

(** A spelling of [VERSION_NAME] starts with a letter, ends with a letter
    and holds no delimiter. *)
Lemma spelling_shape key :
  Str.lower key = version_key →
  ∃ c key',
    key = String c key'
    ∧ Str.isspace c = false ∧ is_comment_prefix c = false
    ∧ Str.eqb c "["%char = false
    ∧ Str.rstrip key = key ∧ has_delimiter key = false.
Proof.
  intros Hlower. change version_key with "version_name" in Hlower.
  do 12 (destruct key as [|? key]; [done|];
         cbn [Str.lower] in Hlower; injection Hlower as Hc Hlower;
         match type of Hc with
         | Str.lower_char ?a = _ =>
             pose proof (lower_char_version a) as Hx; rewrite Hc in Hx;
             destruct (Hx eq_refl) as (? & ? & ? & ?); clear Hx Hc
         end).
  destruct key; [|done]. clear Hlower.
  eexists _, _. split; [done|].
  do 3 (split; [done|]). split.
  - rewrite !rstrip_cons_nonspace by done. done.
  - simpl. by repeat match goal with
                     | H : is_delimiter _ = false |- _ => rewrite H; clear H
                     end.
Qed.

End KeyLine.

(** X8. In a flat file without repeated key, the line of the key may spell
    the name in any letter case, use [=] or [:] as delimiter, and put any
    white space around the delimiter and at the end of the line: the
    value is the rest of the line after the first delimiter, stripped,
    with the delimiters and comment characters it holds. When it holds no
    percent sign, [read_version_name] returns it. *)
Theorem key_line_is_read (w : World) (text : string) (pre post : list string)
    (key ws1 ws2 value ws3 : string) (d : ascii) :
  gradle_file w = Some text →
  readlines text
  = pre ++ (key +:+ ws1 +:+ String d (ws2 +:+ value +:+ ws3)) :: post →
  Str.lower key = Str.lower "VERSION_NAME" →
  configparser.is_delimiter d = true →
  all_space ws1 = true → all_space ws2 = true → all_space ws3 = true →
  Str.strip value = value →
  Str.contains "%"%char value = false →
  Forall (λ line, flat_line line = true) (pre ++ post) →
  NoDup (keys (readlines text)) →
  read_version_name w = Ok value.
Proof.
  intros Hfile Hlines Hkey Hd H1 H2 H3 Hvalue Hplain Hflat Hnodup.
  destruct (spelling_shape key Hkey)
    as (c & key' & -> & Hspace & Hcomment & Hbracket & Hrstrip & Hdelim).
  destruct (option_line_shape c key' ws1 d ws2 value ws3)
    as [Hline Hassign]; try done.
  destruct (read_version_name_flat w text
              (String c key' +:+ ws1 +:+ String d (ws2 +:+ value +:+ ws3))
              value Hfile) as [m ->]; try done.
  - rewrite Hlines. apply Forall_app in Hflat as [Hpre Hpost].
    apply Forall_app. split; [done|]. by apply Forall_cons.
  - rewrite Hlines. apply elem_of_app. right. apply list_elem_of_here.
  - rewrite Hassign. f_equal. f_equal. exact Hkey.
  - by apply before_get_plain.
Qed.

Lemma key_line_is_read_witness :
  read_version_name (checkout (Some colon_file)) = Ok "1.2.3=rc:1 #final".
Proof.
  apply (key_line_is_read _ colon_file
           ["GROUP=com.facebook.stetho" +:+ EOL] []
           "Version_Name" " " "  " "1.2.3=rc:1 #final" (" " +:+ EOL) ":"%char).
  - reflexivity.
  - reflexivity.
  - reflexivity.
  - reflexivity.
  - reflexivity.
  - reflexivity.
  - reflexivity.
  - reflexivity.
  - reflexivity.
  - repeat constructor.
  - apply (bool_decide_unpack _). by vm_compute.
Defined.

(** ** Values over several lines *)

Section Continuation.
Import configparser.

Variable fpname : string.

Lemma line_value_rstripped line : Str.rstrip (line_value line) = line_value line.
Proof. unfold line_value. destruct (is_comment line); [done|apply rstrip_strip]. Qed.

Lemma continuation_line_inv line :
  continuation_line line = true → line_value line ≠ "" ∧ 0 < indent line.
Proof.
  unfold continuation_line. destruct (line_value line); [done|].
  by intros ?%bool_decide_eq_true.
Qed.

(** After an option line that is not indented, the option is open at the
    indentation 0. *)
Lemma read_line_opens_option st st' lineno line k v :
  is_Some (sectname st) → flat_line line = true →
  assignment line = Some (k, v) →
  read_line fpname st lineno line = Ok st' →
  optname st' = Some k ∧ indent_level st' = 0.
Proof.
  intros [name Hname] Hflat Hassign Hstep.
  apply flat_line_inv in Hflat as [Hblank|(Hne & Hind & Hsect & c & o & v0 & Ho)].
  { by rewrite (assignment_blank _ Hblank) in Hassign. }
  unfold assignment in Hassign. rewrite Ho in Hassign.
  injection Hassign as <- <-.
  destruct (read_lineP fpname st lineno line)
    as [?|? opt ???|? opt ???|header ???|???|name' o' v' ?????|? ?????];
    try congruence.
  - lia.
  - assert (o' = String c o) as -> by congruence.
    unfold read_option in Hstep. case_decide; [done|].
    injection Hstep as <-. simpl. by rewrite Hind.
Qed.

(** One continuation line: its text is added to the lines of the open
    option. *)
Lemma read_line_continuation st d lineno line k l :
  flat_state st d → optname st = Some k → k ≠ "" → indent_level st = 0 →
  d !! k = Some l → continuation_line line = true →
  ∃ st', read_line fpname st lineno line = Ok st'
         ∧ flat_state st' (<[k := l ++ [line_value line]]> d)
         ∧ optname st' = Some k ∧ indent_level st' = 0.
Proof.
  intros (Hin & Hexc & Hadded & Hopt) Hk Hne Hlevel Hl
    (Hvalue & Hindent)%continuation_line_inv.
  assert (open_option st = Some ("properties", k)) as Hopen.
  { unfold open_option. destruct Hin as [-> _]. rewrite Hk. by destruct k. }
  assert (sectname st = Some "properties") as Hsect by apply Hin.
  destruct (read_lineP fpname st lineno line)
    as [?|? opt ???|name opt ? Ho ?|header ? Hc ?|???|? o' v' ? Hc ???|? ? Hc ???];
    try congruence; try (destruct Hc; [congruence|lia]).
  assert (name = "properties" ∧ opt = k) as [-> ->] by (split; congruence).
  unfold cursect_append. rewrite (in_properties_cursect _ _ Hin), Hl.
  rewrite (in_properties_set_cursect _ d) by done.
  eexists. split; [done|]. split; [|done].
  split; [split; [apply Hin|done]|]. split; [done|]. simpl. split.
  - intros k' Hk'. rewrite lookup_insert. case_decide; [done|]. auto.
  - intros o' Ho'. rewrite lookup_insert. case_decide; [done|]. auto.
Qed.

Lemma read_lines_continuation conts :
  ∀ st d lineno k l,
    flat_state st d → optname st = Some k → k ≠ "" → indent_level st = 0 →
    d !! k = Some l →
    Forall (λ line, continuation_line line = true) conts →
    ∃ st', read_lines fpname st lineno conts = Ok st'
           ∧ flat_state st' (<[k := l ++ map line_value conts]> d).
Proof.
  induction conts as [|line conts IH];
    intros st d lineno k l Hflat Hk Hne Hlevel Hl Hconts.
  - exists st. split; [done|]. simpl. by rewrite app_nil_r, insert_id.
  - apply Forall_cons in Hconts as [Hline Hconts].
    destruct (read_line_continuation st d lineno line k l)
      as (st1 & Hstep & Hflat1 & Hk1 & Hlevel1); try done.
    destruct (IH st1 _ (S lineno) k (l ++ [line_value line]) Hflat1 Hk1 Hne
                Hlevel1)
      as (st' & Hrun & Hflat'); [apply lookup_insert_eq|done|].
    exists st'. simpl. rewrite Hstep. simpl. split; [done|].
    by rewrite insert_insert_eq, <- app_assoc in Hflat'.
Qed.

Lemma join_cons_nonempty sep x xs :
  x ≠ "" → Str.join sep (x :: xs) ≠ "".
Proof. destruct xs; [done|]. simpl. by destruct x. Qed.

(** Stripped lines, none of them empty after the first, make a value that
    the final [rstrip] leaves as it is. *)
Lemma join_value_stripped v xs :
  Str.rstrip v = v →
  Forall (λ x, x ≠ "" ∧ Str.rstrip x = x) xs →
  join_value (v :: xs) = Str.join EOL (v :: xs).
Proof.
  unfold join_value. change (String LF "") with EOL.
  revert v. induction xs as [|x xs IH]; intros v Hv Hxs; [done|].
  apply Forall_cons in Hxs as [[Hne Hx] Hxs].
  change (Str.join EOL (v :: x :: xs))
    with (v +:+ EOL +:+ Str.join EOL (x :: xs)).
  specialize (IH x Hx Hxs).
  pose proof (join_cons_nonempty EOL x xs Hne) as Hjoin.
  rewrite rstrip_append_nonempty.
  - f_equal. rewrite rstrip_append_nonempty; by rewrite IH.
  - rewrite rstrip_append_nonempty; rewrite IH; [|done].
    unfold EOL. by rewrite append_cons.
Qed.

End Continuation.

Lemma keys_app l1 l2 : keys (l1 ++ l2) = keys l1 ++ keys l2.
Proof. apply omap_app. Qed.

(** X9. A value runs over several lines: in a file whose other lines are
    flat and assign no option twice, the indented lines that follow the
    line of the key (not blank, no comments) continue its value, and
    [read_version_name] returns the value of that line and the stripped
    indented lines, joined by line feeds, when the whole holds no percent
    sign. *)
Theorem continuation_lines_are_joined (w : World) (text : string)
    (pre conts post : list string) (line v : string) :
  gradle_file w = Some text →
  readlines text = pre ++ line :: conts ++ post →
  Forall (λ line, flat_line line = true) (pre ++ line :: post) →
  NoDup (keys (pre ++ line :: post)) →
  assignment line = Some (version_key, v) →
  Forall (λ line, continuation_line line = true) conts →
  Str.contains "%"%char (Str.join EOL (v :: map line_value conts)) = false →
  read_version_name w = Ok (Str.join EOL (v :: map line_value conts)).
Proof.
  intros Hfile Hlines Hflat Hnodup Hassign Hconts Hplain.
  rewrite (read_version_name_open w text Hfile), read_file_properties, Hlines.
  set (f := filename_of w).
  apply Forall_app in Hflat as [Hpre Hpost].
  apply Forall_cons in Hpost as [Hline Hpost].
  assert (key_of line = Some version_key) as Hkey
    by (unfold key_of; by rewrite Hassign).
  rewrite keys_app, keys_cons, Hkey in Hnodup.
  apply NoDup_app in Hnodup as (Hnodup_pre & Hdisjoint & Hnodup_post).
  apply NoDup_cons in Hnodup_post as [Hfresh Hnodup_post].
  (* the lines before the key *)
  destruct (flat_run f pre after_header ∅ 2 after_header_flat_state Hpre
              Hnodup_pre) as (st1 & d1 & Hrun1 & Hflat1 & _ & Hother1); [done|].
  assert (∀ k, k ∉ keys pre → d1 !! k = None) as Hnone1.
  { intros k Hk. specialize (Hother1 k Hk). by destruct (d1 !! k). }
  rewrite read_lines_app, Hrun1. simpl bind.
  (* the line of the key *)
  destruct (flat_step f st1 d1 (2 + length pre) line Hflat1 Hline)
    as (st2 & d2 & Hstep & Hflat2 & Hd2).
  { intros k Hk. apply Hnone1. intros Hin. apply (Hdisjoint k Hin).
    rewrite Hkey in Hk. injection Hk as <-. apply list_elem_of_here. }
  rewrite Hassign in Hd2. subst d2.
  destruct (read_line_opens_option f st1 st2 (2 + length pre) line version_key v)
    as [Hopt2 Hlevel2]; try done.
  { destruct Hflat1 as ([-> _] & _). by eexists. }
  change (2 + length pre) with (S (S (length pre))) in *.
  simpl configparser.read_lines. rewrite Hstep. simpl bind.
  (* the continuation lines *)
  destruct (read_lines_continuation f conts st2 _ (S (S (S (length pre))))
              version_key [v] Hflat2 Hopt2)
    as (st3 & Hrun3 & Hflat3); [done|done|apply lookup_insert_eq|done|].
  rewrite insert_insert_eq in Hflat3.
  rewrite read_lines_app, Hrun3. simpl bind.
  (* the lines after the value *)
  match goal with
  | |- context [configparser.read_lines f st3 ?n post] =>
      destruct (flat_run f post st3 _ n Hflat3 Hpost Hnodup_post)
        as (st4 & d4 & -> & Hflat4 & _ & Hother4)
  end.
  { intros k Hk. rewrite lookup_insert_ne by (by intros <-).
    apply Hnone1. intros Hin. apply (Hdisjoint k Hin).
    by apply list_elem_of_further. }
  destruct Hflat4 as (Hprops & Hexc & _).
  simpl. unfold finish. rewrite Hexc. simpl.
  rewrite (join_in_properties st4 d4 Hprops).
  destruct (lookup_version_properties (configparser.join_value <$> d4)) as (m & _ & _ & ->).
  rewrite lookup_fmap, (Hother4 version_key Hfresh), lookup_insert_eq. simpl.
  assert (configparser.join_value (v :: map line_value conts)
          = Str.join EOL (v :: map line_value conts)) as ->.
  { apply join_value_stripped.
    - unfold assignment in Hassign.
      destruct (configparser.OPTCRE_match _) as [[o v0]|]; [|done].
      injection Hassign as _ <-. apply rstrip_strip.
    - apply Forall_fmap. eapply Forall_impl; [exact Hconts|].
      intros l [Hl _]%continuation_line_inv. split; [done|].
      apply line_value_rstripped. }
  by apply before_get_plain.
Qed.

Lemma continuation_lines_are_joined_witness :
  read_version_name (checkout (Some multiline_file))
  = Ok ("1.2.3" +:+ EOL +:+ "release candidate").
Proof.
  apply (continuation_lines_are_joined _ multiline_file
           [] ["    release candidate" +:+ EOL]
           ["  # two" +:+ EOL; EOL; "GROUP = com.facebook.stetho" +:+ EOL]
           ("VERSION_NAME = 1.2.3" +:+ EOL) "1.2.3").
  - reflexivity.
  - reflexivity.
  - repeat constructor.
  - apply (bool_decide_unpack _). by vm_compute.
  - reflexivity.
  - repeat constructor.
  - reflexivity.
Defined.

(** ** Other sections *)

Section Sections.
Import configparser.

Variable fpname : string.

Lemma lacks_key_not_in_properties k (p : parser (list string)) :
  lacks_key k p → not_in_properties k p.
Proof. intros [Hd Hs]. split; [done|]. intros d. apply Hs. Qed.

Lemma not_in_properties_set_cursect k (p : parser (list string)) name d :
  name ≠ "properties" → name ≠ DEFAULTSECT →
  not_in_properties k p → not_in_properties k (set_cursect p name d).
Proof.
  intros Hp Hd [Hdef Hsec]. unfold set_cursect.
  destruct (decide (name = DEFAULTSECT)) as [?|_]; [contradiction|].
  split; simpl; [done|].
  intros d'. rewrite lookup_insert_ne by done. apply Hsec.
Qed.

Lemma sections_set_cursect (p : parser (list string)) name d s :
  is_Some (_sections p !! s) → is_Some (_sections (set_cursect p name d) !! s).
Proof.
  intros Hs. unfold set_cursect. case_decide; simpl; [done|].
  rewrite lookup_insert. by case_decide.
Qed.

Lemma cursect_append_elsewhere k st name opt value st' :
  elsewhere k st → sectname st = Some name →
  cursect_append st name opt value = Ok st' → elsewhere k st'.
Proof.
  intros ((s & Hs & Hp & Hd) & Hsec & Hadded & Hk) Hname.
  assert (s = name) as -> by congruence.
  unfold cursect_append. destruct (_ !! opt) as [l|]; [|done].
  intros [= <-]. simpl. split; [by exists name|].
  split; [by apply sections_set_cursect|]. split; [done|].
  by apply not_in_properties_set_cursect.
Qed.

Lemma read_line_elsewhere k st lineno line st' :
  elsewhere k st → section_of line ≠ Some DEFAULTSECT →
  read_line fpname st lineno line = Ok st' → elsewhere k st'.
Proof.
  intros Hst Hline Hstep.
  destruct (read_lineP fpname st lineno line)
    as [?|name opt ?? Ho|name opt ? Ho ?|header ?? Hh|???|name o v ?? Hs Hn Ho
       |name ?? Hs Hn ?].
  - by simplify_eq.
  - apply open_option_inv in Ho as (Hname & _). by eapply cursect_append_elsewhere.
  - apply open_option_inv in Ho as (Hname & _). by eapply cursect_append_elsewhere.
  - destruct Hst as (_ & Hsec & Hadded & Hk).
    assert (header ≠ DEFAULTSECT) as Hd.
    { intros ->. by apply Hline. }
    unfold read_header in Hstep.
    destruct (_sections (self st) !! header) as [d|] eqn:E.
    + case_decide as Hin; [done|]. injection Hstep as <-. simpl.
      assert (header ≠ "properties") as Hp by (by intros ->).
      split; [by exists header|]. split; [done|].
      split; [|done]. apply elem_of_union. by right.
    + destruct (decide (header = DEFAULTSECT)) as [?|_]; [contradiction|].
      injection Hstep as <-. unfold elsewhere. simpl.
      assert (header ≠ "properties") as Hp.
      { intros ->. rewrite E in Hsec. by destruct Hsec. }
      split; [by exists header|].
      split; [by rewrite lookup_insert_ne|].
      split; [apply elem_of_union; by right|].
      destruct Hk as [Hdef Hprops]. split; simpl; [done|].
      intros d. rewrite lookup_insert_ne by done. apply Hprops.
  - done.
  - destruct Hst as ((s & Hs' & Hp & Hd) & Hsec & Hadded & Hk).
    assert (s = name) as -> by congruence.
    unfold read_option in Hstep. case_decide; [done|].
    injection Hstep as <-. simpl. split; [by exists name|].
    split; [by apply sections_set_cursect|]. split; [done|].
    by apply not_in_properties_set_cursect.
  - by simplify_eq.
Qed.

Lemma join_not_in_properties k (p : parser (list string)) :
  not_in_properties k p → not_in_properties k (_join_multiline_values p).
Proof.
  intros [Hd Hs]. split; simpl.
  - by rewrite lookup_fmap, Hd.
  - intros d. rewrite lookup_fmap.
    destruct (_sections p !! "properties") as [d0|]; simpl; [|done].
    intros [= <-]. by rewrite lookup_fmap, (Hs d0 eq_refl).
Qed.

Lemma lookup_version_not_in_properties (config : parser string) :
  not_in_properties version_key config →
  is_Some (_sections config !! "properties") →
  lookup_version config = Raise (KeyError "VERSION_NAME").
Proof.
  intros [Hd Hs] [d Hsec]. unfold lookup_version, getitem, has_section.
  rewrite Hsec, (bool_decide_true (is_Some (Some d))) by by eexists.
  rewrite andb_false_r. simpl bind.
  unfold proxy_getitem, has_option.
  destruct (decide ("properties" = DEFAULTSECT)) as [?|_]; [done|].
  rewrite Hsec. fold version_key. rewrite (Hs _ Hsec), Hd.
  rewrite !bool_decide_false by by intros [? ?]. done.
Qed.

(** A line that has the shape of a section header and is not indented
    opens the section. *)
Lemma read_line_header st lineno line name :
  section_of line = Some name → indent line = 0 →
  read_line fpname st lineno line = read_header st fpname lineno 0 name.
Proof.
  intros Hsect Hindent.
  assert (line_value line ≠ "") as Hne.
  { intros Hv. unfold section_of in Hsect. by rewrite Hv in Hsect. }
  unfold section_of in Hsect.
  destruct (read_lineP fpname st lineno line)
    as [?|? opt ???|? opt ???|header ???|???|? o v ?????|? ?????];
    try congruence.
  lia.
Qed.

End Sections.

(** X10. Only the section [properties] and the defaults are searched. In
    a file that parses, when no line assigns the key before a line that
    opens another section (an unindented line with the shape of a section
    header, not [[DEFAULT]]), and no later line has the shape of the
    header [[DEFAULT]], then [read_version_name] raises [KeyError] for
    [VERSION_NAME], whatever the lines after the header assign. *)
Theorem other_sections_are_not_searched (w : World) (text : string)
    (pre post : list string) (header name : string) :
  gradle_file w = Some text →
  readlines text = pre ++ header :: post →
  (∃ config,
      configparser.read_file (chain ["[properties]"] (readlines text))
        (filename_of w) = Ok config) →
  Forall (λ line, key_of line ≠ Some version_key) pre →
  section_of header = Some name → indent header = 0 →
  name ≠ configparser.DEFAULTSECT →
  Forall (λ line, section_of line ≠ Some configparser.DEFAULTSECT) post →
  read_version_name w = Raise (KeyError "VERSION_NAME").
Proof.
  intros Hfile Hlines [config Hparse] Hpre Hsect Hindent Hname Hpost.
  rewrite (read_version_name_open w text Hfile), Hparse. simpl.
  rewrite read_file_properties, Hlines, read_lines_app in Hparse.
  set (f := filename_of w) in *.
  destruct (configparser.read_lines f after_header 2 pre) as [st1|?] eqn:Hrun1;
    [|done].
  simpl in Hparse.
  destruct (configparser.read_line f st1 (S (S (length pre))) header)
    as [st2|?] eqn:Hstep; [|done].
  simpl in Hparse.
  destruct (configparser.read_lines f st2 _ post) as [st3|?] eqn:Hrun3; [|done].
  simpl in Hparse. unfold finish in Hparse.
  destruct (configparser.exc st3); [done|]. injection Hparse as <-.
  (* the lines before the header *)
  assert (lacks_key version_key (configparser.self st1)) as Hlacks.
  { eapply (read_lines_invariant f
              (λ st, lacks_key version_key (configparser.self st))
              (λ line, key_of line ≠ Some version_key)); [|..|exact Hrun1];
      [|split; [done|]|done].
    - intros ?????. by apply read_line_lacks_key.
    - intros s d. simpl. rewrite lookup_insert.
      case_decide; [by intros [= <-]|done]. }
  destruct (read_lines_properties_opened f pre after_header 2 st1)
    as [Hsec Hadded]; [by eexists| |done|].
  { apply elem_of_union. left. by apply elem_of_singleton. }
  (* the header *)
  assert (elsewhere version_key st2) as Hst2.
  { rewrite (read_line_header f st1 _ header name Hsect Hindent) in Hstep.
    unfold configparser.read_header in Hstep.
    destruct (configparser._sections (configparser.self st1) !! name)
      as [d|] eqn:E.
    - case_decide as Hin; [done|]. injection Hstep as <-.
      assert (name ≠ "properties") as Hp by (by intros ->).
      unfold elsewhere. simpl. split; [by exists name|]. split; [done|].
      split; [apply elem_of_union; by right|].
      by apply lacks_key_not_in_properties.
    - destruct (decide (name = configparser.DEFAULTSECT)) as [?|_];
        [contradiction|].
      injection Hstep as <-.
      assert (name ≠ "properties") as Hp.
      { intros ->. rewrite E in Hsec. by destruct Hsec. }
      unfold elsewhere. simpl. split; [by exists name|].
      split; [by rewrite lookup_insert_ne|].
      split; [apply elem_of_union; by right|].
      destruct Hlacks as [Hdef Hprops]. split; simpl; [done|].
      intros d. rewrite lookup_insert_ne by done. apply Hprops. }
  (* the lines after the header *)
  assert (elsewhere version_key st3) as (_ & Hsec3 & _ & Hk3).
  { eapply (read_lines_invariant f (elsewhere version_key)
              (λ line, section_of line ≠ Some configparser.DEFAULTSECT));
      [|exact Hst2|exact Hpost|exact Hrun3].
    intros ?????. by apply read_line_elsewhere. }
  apply lookup_version_not_in_properties.
  - by apply join_not_in_properties.
  - simpl. rewrite lookup_fmap. destruct Hsec3 as [d ->]. by eexists.
Qed.

Lemma other_sections_are_not_searched_witness :
  read_version_name (checkout (Some other_section_file))
  = Raise (KeyError "VERSION_NAME").
Proof.
  apply (other_sections_are_not_searched _ other_section_file
           ["GROUP = com.facebook.stetho" +:+ EOL]
           ["VERSION_NAME = 1.2.3" +:+ EOL; "[debug]" +:+ EOL;
            "VERSION_NAME = 1.2.3-SNAPSHOT" +:+ EOL]
           ("[release]" +:+ EOL) "release").
  - reflexivity.
  - reflexivity.
  - eexists. vm_compute. reflexivity.
  - repeat constructor; by vm_compute.
  - reflexivity.
  - reflexivity.
  - done.
  - repeat constructor; by vm_compute.
Defined.

(** ** The defaults *)

Section Defaults.
Import configparser.

Variable fpname : string.

Lemma read_line_in_defaults k v st lineno line st' :
  in_defaults k v st → flat_line line = true →
  read_line fpname st lineno line = Ok st' → in_defaults k v st'.
Proof.
  intros (Hsect & Hadded & Hv & d & Hsec & Hk) Hflat Hstep.
  assert (∀ name opt value,
            open_option st = Some (name, opt) → value = "" →
            cursect_append st name opt value = Ok st' →
            in_defaults k v st') as Happend.
  { intros name opt value Ho -> Happ.
    apply open_option_inv in Ho as (Hname & _).
    assert (name = DEFAULTSECT) as -> by congruence.
    unfold cursect_append, cursect, set_cursect in Happ.
    destruct (decide (DEFAULTSECT = DEFAULTSECT)) as [_|?]; [|done].
    destruct (_defaults (self st) !! opt) as [l|] eqn:Hl; [|done].
    injection Happ as <-. unfold in_defaults. simpl.
    split; [done|]. split; [done|]. split; [|by exists d].
    destruct (decide (opt = k)) as [->|Hne].
    - rewrite lookup_insert_eq. simpl. rewrite join_value_snoc_empty.
      by rewrite Hl in Hv.
    - by rewrite lookup_insert_ne. }
  destruct (read_lineP fpname st lineno line)
    as [?|name opt ???|name opt Hne Ho Hlt|header Hne ? Hh|???
       |name o v0 Hne ? Hs Hn Ho|name ?? Hs Hn ?].
  - simplify_eq. unfold in_defaults.
    split; [done|]. split; [done|]. split; [done|]. by exists d.
  - by apply (Happend name opt "").
  - apply flat_line_inv in Hflat as [?|(_ & Hindent & _)]; [done|lia].
  - apply flat_line_inv in Hflat as [?|(_ & _ & Hnone & _)]; [done|congruence].
  - done.
  - assert (name = DEFAULTSECT) as -> by congruence.
    unfold read_option in Hstep. case_decide as Hin; [done|].
    injection Hstep as <-. unfold in_defaults, cursect, set_cursect.
    destruct (decide (DEFAULTSECT = DEFAULTSECT)) as [_|?]; [|done].
    simpl. split; [done|].
    split; [apply elem_of_union; by right|]. split; [|by exists d].
    rewrite lookup_insert_ne; [done|]. intros Heq. apply Hin. by rewrite Heq.
  - simplify_eq. unfold in_defaults. simpl.
    split; [done|]. split; [done|]. split; [done|]. by exists d.
Qed.

(** The proxy of [properties] falls back on the defaults. *)
Lemma lookup_version_defaults (config : parser string)
    (d : gmap string string) (v : string) :
  _sections config !! "properties" = Some d → d !! version_key = None →
  _defaults config !! version_key = Some v →
  Str.contains "%"%char v = false →
  lookup_version config = Ok v.
Proof.
  intros Hsec Hk Hv Hplain. unfold lookup_version, getitem, has_section.
  rewrite Hsec, (bool_decide_true (is_Some (Some d))) by by eexists.
  rewrite andb_false_r. simpl bind.
  unfold proxy_getitem, has_option, get, _unify_values.
  destruct (decide ("properties" = DEFAULTSECT)) as [?|_]; [done|].
  rewrite Hsec. fold version_key. rewrite Hk, Hv.
  rewrite (bool_decide_false (is_Some None)) by by intros [? ?].
  rewrite (bool_decide_true (is_Some (Some v))) by by eexists.
  simpl. fold version_key. rewrite Hk, Hv. by apply before_get_plain.
Qed.

End Defaults.

(** X11. The defaults are searched too. In a file that parses, when no
    line assigns the key before an unindented line with the shape of the
    header [[DEFAULT]], the line after that header assigns the value [v]
    to the key, and the lines that follow are flat, then
    [read_version_name] returns [v], if it holds no percent sign: the key
    is found although the section [properties] does not hold it. *)
Theorem default_section_is_searched (w : World) (text : string)
    (pre post : list string) (header line v : string) :
  gradle_file w = Some text →
  readlines text = pre ++ header :: line :: post →
  (∃ config,
      configparser.read_file (chain ["[properties]"] (readlines text))
        (filename_of w) = Ok config) →
  Forall (λ line, key_of line ≠ Some version_key) pre →
  section_of header = Some configparser.DEFAULTSECT → indent header = 0 →
  Forall (λ line, flat_line line = true) (line :: post) →
  assignment line = Some (version_key, v) →
  Str.contains "%"%char v = false →
  read_version_name w = Ok v.
Proof.
  intros Hfile Hlines [config Hparse] Hpre Hsect Hindent Hflat Hassign Hplain.
  apply Forall_cons in Hflat as [Hline Hpost].
  rewrite (read_version_name_open w text Hfile), Hparse. simpl.
  rewrite read_file_properties, Hlines, read_lines_app in Hparse.
  set (f := filename_of w) in *.
  destruct (configparser.read_lines f after_header 2 pre) as [st1|?] eqn:Hrun1;
    [|done].
  simpl in Hparse.
  destruct (configparser.read_line f st1 (S (S (length pre))) header)
    as [st2|?] eqn:Hhead; [|done].
  simpl in Hparse.
  destruct (configparser.read_line f st2 (S (S (S (length pre)))) line)
    as [st3|?] eqn:Hstep; [|done].
  simpl in Hparse.
  destruct (configparser.read_lines f st3 _ post) as [st4|?] eqn:Hrun4; [|done].
  simpl in Hparse. unfold finish in Hparse.
  destruct (configparser.exc st4); [done|]. injection Hparse as <-.
  (* the lines before the header *)
  assert (lacks_key version_key (configparser.self st1)) as Hlacks.
  { eapply (read_lines_invariant f
              (λ st, lacks_key version_key (configparser.self st))
              (λ line, key_of line ≠ Some version_key)); [|..|exact Hrun1];
      [|split; [done|]|done].
    - intros ?????. by apply read_line_lacks_key.
    - intros s d. simpl. rewrite lookup_insert.
      case_decide; [by intros [= <-]|done]. }
  destruct (read_lines_properties_opened f pre after_header 2 st1)
    as [[d1 Hsec] _]; [by eexists| |done|].
  { apply elem_of_union. left. by apply elem_of_singleton. }
  (* the header *)
  rewrite (read_line_header f st1 _ header _ Hsect Hindent) in Hhead.
  assert (configparser.self st2 = configparser.self st1
          ∧ configparser.sectname st2 = Some configparser.DEFAULTSECT
          ∧ configparser.optname st2 = None) as (Hself2 & Hsect2 & Hopt2).
  { unfold configparser.read_header in Hhead.
    destruct (configparser._sections _ !! _); repeat case_decide;
      by simplify_eq. }
  (* the line of the key *)
  assert (in_defaults version_key v st3) as Hst3.
  { assert (configparser.open_option st2 = None) as Hopen.
    { unfold configparser.open_option. by rewrite Hsect2, Hopt2. }
    apply flat_line_inv in Hline as [Hblank|(Hvalue & _ & Hnone & _)].
    { by rewrite (assignment_blank _ Hblank) in Hassign. }
    unfold assignment in Hassign.
    destruct (read_lineP f st2 (S (S (S (length pre)))) line)
      as [?|name opt ???|name opt ???|? ???|???
         |name o v0 Hne ? Hs Hn Ho|name ?? Hs Hn Ho]; try congruence.
    2:{ by rewrite Ho in Hassign. }
    rewrite Ho in Hassign. injection Hassign as Hkey Hv.
    assert (name = configparser.DEFAULTSECT) as -> by congruence.
    unfold configparser.read_option in Hstep. rewrite Hkey in Hstep.
    case_decide as Hin; [done|]. injection Hstep as <-.
    unfold in_defaults, configparser.cursect, configparser.set_cursect.
    destruct (decide (configparser.DEFAULTSECT = configparser.DEFAULTSECT))
      as [_|?]; [|done].
    simpl. split; [done|].
    split; [apply elem_of_union; left; by apply elem_of_singleton|].
    split.
    - rewrite lookup_insert_eq. simpl. rewrite join_value_single. by f_equal.
    - exists d1. rewrite Hself2. split; [done|].
      destruct Hlacks as [_ Hprops]. by eapply Hprops. }
  (* the lines after it *)
  assert (in_defaults version_key v st4) as (_ & _ & Hv4 & d4 & Hsec4 & Hk4).
  { eapply (read_lines_invariant f (in_defaults version_key v)
              (λ line, flat_line line = true));
      [|exact Hst3|exact Hpost|exact Hrun4].
    intros ?????. by eapply read_line_in_defaults. }
  apply (lookup_version_defaults _ (configparser.join_value <$> d4)).
  - simpl. by rewrite lookup_fmap, Hsec4.
  - by rewrite lookup_fmap, Hk4.
  - simpl. by rewrite lookup_fmap.
  - done.
Qed.

Lemma default_section_is_searched_witness :
  read_version_name (checkout (Some default_section_file)) = Ok "1.2.3".
Proof.
  apply (default_section_is_searched _ default_section_file
           ["GROUP = com.facebook.stetho" +:+ EOL]
           [EOL; "ARTIFACT = stetho" +:+ EOL]
           ("[DEFAULT]" +:+ EOL) ("VERSION_NAME = 1.2.3" +:+ EOL)).
  - reflexivity.
  - reflexivity.
  - eexists. vm_compute. reflexivity.
  - repeat constructor; by vm_compute.
  - reflexivity.
  - reflexivity.
  - repeat constructor.
  - reflexivity.
  - reflexivity.
Defined.

(** ** References that never end *)

Section Depth.
Import configparser.

Lemma contains_middle c s t : Str.contains c (s +:+ String c t) = true.
Proof.
  induction s as [|d s IH].
  - change (Str.eqb c c || Str.contains c t = true).
    unfold Str.eqb. by rewrite Ascii.eqb_refl.
  - rewrite append_cons.
    change (Str.eqb c d || Str.contains c (s +:+ String c t) = true).
    rewrite IH. apply orb_true_r.
Qed.

(** A value that refers to its own option is expanded until the depth
    is used up. *)
Lemma interpolate_some_self_reference opt section map before name after :
  map (optionxform opt)
  = Some (before +:+ "%(" +:+ name +:+ ")s" +:+ after) →
  optionxform name = optionxform opt →
  name ≠ "" → Str.contains ")"%char name = false →
  Str.contains "%"%char before = false →
  ∀ fuel accum,
    _interpolate_some fuel opt accum
      (before +:+ "%(" +:+ name +:+ ")s" +:+ after) section map
    = Raise (InterpolationDepthError opt section
               (before +:+ "%(" +:+ name +:+ ")s" +:+ after)).
Proof.
  intros Hmap Hself Hname Hparen Hbefore.
  induction fuel as [|fuel IH]; intros accum.
  - simpl. by rewrite Hmap.
  - change (interpolate_loop
              (λ accum v, _interpolate_some fuel opt accum v section map)
              opt section
              (default (before +:+ "%(" +:+ name +:+ ")s" +:+ after)
                 (map (optionxform opt)))
              map (before +:+ "%(" +:+ name +:+ ")s" +:+ after) accum
            = Raise (InterpolationDepthError opt section
                       (before +:+ "%(" +:+ name +:+ ")s" +:+ after))).
    rewrite interpolate_loop_prefix by done.
    rewrite interpolate_loop_reference by done.
    rewrite Hself, Hmap.
    change ("%(" +:+ name +:+ ")s" +:+ after)
      with (String "%"%char (String "("%char (name +:+ ")s" +:+ after))).
    rewrite contains_middle.
    change (String "%"%char (String "("%char (name +:+ ")s" +:+ after)))
      with ("%(" +:+ name +:+ ")s" +:+ after).
    by rewrite IH.
Qed.

End Depth.

(** X12. In a flat file without repeated key, a value of the key that
    refers to the key itself (a reference [%(name)s] whose name is the key
    in any letter case, after text without percent sign) makes
    [read_version_name] raise [InterpolationDepthError], with the raw
    value of the key. *)
Theorem self_reference_is_fatal (w : World) (text line : string)
    (before name after : string) :
  gradle_file w = Some text →
  Forall (λ line, flat_line line = true) (readlines text) →
  NoDup (keys (readlines text)) →
  line ∈ readlines text →
  assignment line
  = Some (version_key, before +:+ "%(" +:+ name +:+ ")s" +:+ after) →
  configparser.optionxform name = version_key →
  Str.contains ")"%char name = false →
  Str.contains "%"%char before = false →
  read_version_name w
  = Raise (InterpolationDepthError version_key "properties"
             (before +:+ "%(" +:+ name +:+ ")s" +:+ after)).
Proof.
  intros Hfile Hflat Hnodup Hin Hassign Hself Hparen Hb.
  destruct (read_version_name_flat_map w text Hfile Hflat Hnodup)
    as (m & Hall & _ & ->).
  rewrite (Hall _ _ _ Hin Hassign).
  unfold configparser.before_get.
  apply interpolate_some_self_reference; try done.
  - change (configparser.optionxform version_key) with version_key.
    by apply (Hall _ _ _ Hin Hassign).
  - by intros ->.
Qed.

Lemma self_reference_is_fatal_witness :
  read_version_name (checkout (Some self_reference_file))
  = Raise (InterpolationDepthError version_key "properties"
             ("1.2.3-" +:+ "%(" +:+ "Version_Name" +:+ ")s" +:+ "-x")).
Proof.
  apply (self_reference_is_fatal _ self_reference_file
           ("VERSION_NAME = 1.2.3-%(Version_Name)s-x" +:+ EOL)
           "1.2.3-" "Version_Name" "-x").
  - reflexivity.
  - repeat constructor.
  - apply (bool_decide_unpack _). by vm_compute.
  - apply list_elem_of_further, list_elem_of_here.
  - reflexivity.
  - reflexivity.
  - reflexivity.
  - reflexivity.
Defined.
